(** * GraphGenerator.js: the extraction and graph-assembly pipeline

    A shallow embedding of [src/GraphGenerator.js]: the import resolver
    [resolveImportPath], the per-file classifier [parseFile] (a Babel
    traversal with four visitors) and the two-pass graph assembly of [main].

    Arrays are lists ([push] appends at the end), the object [fileMap] used
    as a dictionary is a [gmap], an exception is the [Throw] case of
    [result].  Node's [path] module, the Babel parser and the trees on which
    Babel's [traverse] throws are not part of the repository: they are the
    operations of the class [Platform].  The filesystem is an explicit value
    of type [FileSystem] which the code only reads. *)

From Stdlib Require Import Ascii.
From stdpp Require Import base option list gmap strings.

(** ** Strings *)

Definition newline : ascii := ascii_of_nat 10.
Definition backslash : ascii := ascii_of_nat 92.
Definition slash : ascii := ascii_of_nat 47.

(** [/^[A-Z]/.test(s)] *)
Definition starts_upper (s : string) : bool :=
  match s with
  | EmptyString => false
  | String c _ => (65 <=? nat_of_ascii c)%nat && (nat_of_ascii c <=? 90)%nat
  end.

(** [s.startsWith(p)] *)
Definition startsWith (s p : string) : bool := String.prefix p s.

(** A string used as a condition: the empty string is falsy. *)
Definition truthy (s : string) : bool :=
  match s with EmptyString => false | String _ _ => true end.

(** [s.replace(/\\/g, '/')] *)
Fixpoint replace_backslashes (s : string) : string :=
  match s with
  | EmptyString => EmptyString
  | String c r =>
      String (if Ascii.eqb c backslash then slash else c) (replace_backslashes r)
  end.

(** [s.replace('.', '')]: only the first occurrence is replaced. *)
Fixpoint remove_first_dot (s : string) : string :=
  match s with
  | EmptyString => EmptyString
  | String c r => if Ascii.eqb c "."%char then r else String c (remove_first_dot r)
  end.

(** [code.split('\n').length] *)
Fixpoint split_newline_length (code : string) : nat :=
  match code with
  | EmptyString => 1
  | String c r =>
      if Ascii.eqb c newline then S (split_newline_length r)
      else split_newline_length r
  end.

(** [c] occurs in [s]. *)
Fixpoint has_char (c : ascii) (s : string) : bool :=
  match s with
  | EmptyString => false
  | String d r => Ascii.eqb c d || has_char c r
  end.

(** What follows the last [c] in [s]; all of [s] when [c] does not occur. *)
Fixpoint after_last (c : ascii) (s : string) : string :=
  match s with
  | EmptyString => EmptyString
  | String d r =>
      if has_char c r then after_last c r
      else if Ascii.eqb c d then r else s
  end.

(** The name of a JavaScript identifier holds neither [:] nor [.]. *)
Definition identifier_like (name : string) : Prop :=
  has_char ":"%char name = false /\ has_char "."%char name = false.

(** ** Syntax trees

    The Babel node types the visitors look at, each with the children Babel
    traverses (in the order of its visitor keys); [OtherNode] is a node of
    any other type, with its child nodes in traversal order.  Only an
    [Identifier] has a [name] property among the nodes that can stand where
    the code reads [.name].  The [id] of a function is the name of its
    identifier, [None] when the function has none. *)

(** The specifiers of an import declaration; [imported] is the [name] of the
    imported binding, [None] when it is written as a string literal (which
    has no [name] property). *)
Inductive import_specifier : Type :=
  | ImportSpecifier (imported : option string) (local : string)
  | ImportDefaultSpecifier (local : string)
  | ImportNamespaceSpecifier (local : string).

#[warnings="-register-all"]
Inductive node : Type :=
  | Identifier (name : string)
  | ArrayPattern (elements : list (option node))
  | ImportDeclaration (source : string) (specifiers : list import_specifier)
  | FunctionDeclaration (id : option string) (params : list node) (body : node)
  | FunctionExpression (id : option string) (params : list node) (body : node)
  | ArrowFunctionExpression (params : list node) (body : node)
  | VariableDeclarator (id : node) (init : option node)
  | CallExpression (callee : node) (arguments : list node)
  | OtherNode (children : list node).

(** [n.name]: [None] is [undefined]. *)
Definition node_name (n : node) : option string :=
  match n with Identifier name => Some name | _ => None end.

(** The tree [parser.parse] returns: a [File] node whose [program] holds the
    top-level statements in [body].  Neither the [File] node nor the
    [Program] node is of a type the visitors look at. *)
Record file_ast : Type := File { body : list node }.

(** ** The metadata record of a file, graph nodes and edges *)

Record file_metadata : Type := Metadata {
  id : string;
  linesOfCode : nat;
  components : list string;
  usesState : bool;
  usesEffect : bool;
  usesHooks : list string;
  usesContext : bool;
  declaresRoutes : bool;
  stateVariables : list string;
  imports : list string;
  fileType : string
}.

Definition push_components (x : string) (m : file_metadata) : file_metadata :=
  Metadata (id m) (linesOfCode m) (components m ++ [x]) (usesState m)
    (usesEffect m) (usesHooks m) (usesContext m) (declaresRoutes m)
    (stateVariables m) (imports m) (fileType m).

Definition set_usesState (m : file_metadata) : file_metadata :=
  Metadata (id m) (linesOfCode m) (components m) true
    (usesEffect m) (usesHooks m) (usesContext m) (declaresRoutes m)
    (stateVariables m) (imports m) (fileType m).

Definition set_usesEffect (m : file_metadata) : file_metadata :=
  Metadata (id m) (linesOfCode m) (components m) (usesState m)
    true (usesHooks m) (usesContext m) (declaresRoutes m)
    (stateVariables m) (imports m) (fileType m).

Definition push_usesHooks (x : string) (m : file_metadata) : file_metadata :=
  Metadata (id m) (linesOfCode m) (components m) (usesState m)
    (usesEffect m) (usesHooks m ++ [x]) (usesContext m) (declaresRoutes m)
    (stateVariables m) (imports m) (fileType m).

Definition set_usesContext (m : file_metadata) : file_metadata :=
  Metadata (id m) (linesOfCode m) (components m) (usesState m)
    (usesEffect m) (usesHooks m) true (declaresRoutes m)
    (stateVariables m) (imports m) (fileType m).

Definition set_declaresRoutes (m : file_metadata) : file_metadata :=
  Metadata (id m) (linesOfCode m) (components m) (usesState m)
    (usesEffect m) (usesHooks m) (usesContext m) true
    (stateVariables m) (imports m) (fileType m).

Definition push_stateVariables (x : string) (m : file_metadata) : file_metadata :=
  Metadata (id m) (linesOfCode m) (components m) (usesState m)
    (usesEffect m) (usesHooks m) (usesContext m) (declaresRoutes m)
    (stateVariables m ++ [x]) (imports m) (fileType m).

Definition push_imports (x : string) (m : file_metadata) : file_metadata :=
  Metadata (id m) (linesOfCode m) (components m) (usesState m)
    (usesEffect m) (usesHooks m) (usesContext m) (declaresRoutes m)
    (stateVariables m) (imports m ++ [x]) (fileType m).

(** [arr.includes(x)] *)
Definition includes (l : list string) (x : string) : bool :=
  bool_decide (x ∈ l).

(** An element of [graph.nodes]: a file's metadata ([nodeType: 'file']) or a
    state node ([nodeType: 'state']). *)
Inductive graph_node : Type :=
  | FileNode (m : file_metadata)
  | StateNode (node_id label parent : string).

Inductive edge_type : Type := imports_edge | state_edge.

Record edge : Type := Edge {
  source : string;
  target : string;
  type : edge_type
}.

Record graph : Type := Graph {
  nodes : list graph_node;
  edges : list edge
}.

Definition graph_node_id (n : graph_node) : string :=
  match n with FileNode m => id m | StateNode i _ _ => i end.

(** ** Exceptions *)

(** What [parseFile] can throw for a file: the read fails, the parser
    rejects the text, or [traverse] rejects the tree. *)
Inductive exn : Type :=
  | ReadError (path : string)
  | SyntaxError (path : string)
  | TypeError (path : string).

Inductive result (A : Type) : Type :=
  | Ok (a : A)
  | Throw (e : exn).
Arguments Ok {A} a.
Arguments Throw {A} e.

Definition bind {A B : Type} (r : result A) (k : A -> result B) : result B :=
  match r with Ok a => k a | Throw e => Throw e end.

Notation "'let*' x ':=' r 'in' k" := (bind r (fun x => k))
  (at level 10, x pattern, r at level 100, k at level 200).

(** ** The platform: Node's [path] module and the Babel parser *)

Class Platform : Type := {
  path_dirname : string -> string;
  path_resolve : string -> string -> string;
  path_join : string -> string -> string;
  path_relative : string -> string -> string;
  path_extname : string -> string;
  (** [__dirname] of the script *)
  script_dirname : string;
  (** [parser.parse(code, ...)]: [None] when the parser throws *)
  parser_parse : string -> option file_ast;
  (** [traverse(ast, ...)] throws on this tree.  While it walks, Babel builds
      the scopes of the program and rejects some trees the parser accepts
      (a [TypeError], for instance "Duplicate declaration"); the visitors of
      [parseFile] do not change the tree and do not throw themselves, so
      whether the call throws depends on the tree alone. *)
  traverse_throws : file_ast -> bool
}.

(** The filesystem as the code reads it. *)
Record FileSystem : Type := {
  existsSync : string -> bool;
  (** [None] when the read throws *)
  readFileSync : string -> option string
}.

(** ** [resolveImportPath] *)

Section GraphGenerator.

Context `{Platform}.

Definition projectRoot : string :=
  path_resolve script_dirname "/Users/aneesh/grafana/packages/grafana-ui/src".

Definition fileExtensions : list string := [".js"; ".jsx"; ".ts"; ".tsx"].

(** The array [possibilities] of [resolveImportPath]. *)
Definition possibilities (fromFile importPath : string) : list string :=
  let baseDir :=
    if startsWith importPath "." then path_dirname fromFile else projectRoot in
  let fullPath := path_resolve baseDir importPath in
  [ fullPath +:+ ".js";
    fullPath +:+ ".jsx";
    fullPath +:+ ".ts";
    fullPath +:+ ".tsx";
    path_join fullPath "index.js";
    path_join fullPath "index.jsx";
    path_join fullPath "index.ts";
    path_join fullPath "index.tsx" ].

(** [for (const p of ps) { if (fs.existsSync(p)) return p; } return null;] *)
Fixpoint first_existing (fs : FileSystem) (ps : list string) : option string :=
  match ps with
  | [] => None
  | p :: rest => if existsSync fs p then Some p else first_existing fs rest
  end.

Definition resolveImportPath (fs : FileSystem) (fromFile importPath : string)
  : option string :=
  first_existing fs (possibilities fromFile importPath).

(** ** The classifier: [isReactComponent] and the four visitors *)

Definition isReactComponent (n : node) : bool :=
  match n with
  | FunctionDeclaration (Some name) _ _
  | FunctionExpression (Some name) _ _ => starts_upper name
  | _ => false
  end.

Definition is_route_specifier (s : import_specifier) : bool :=
  match s with
  | ImportSpecifier imported _ =>
      bool_decide (imported = Some "Route")
      || bool_decide (imported = Some "Routes")
  | _ => false
  end.

Definition visit_ImportDeclaration (fs : FileSystem) (filePath : string)
    (n : node) (metadata : file_metadata) : file_metadata :=
  match n with
  | ImportDeclaration importPath specifiers =>
      let metadata :=
        match resolveImportPath fs filePath importPath with
        | Some importFile =>
            if truthy importFile then
              push_imports
                (replace_backslashes (path_relative projectRoot importFile))
                metadata
            else metadata
        | None => metadata
        end in
      if String.eqb importPath "react-router-dom"
         && existsb is_route_specifier specifiers
      then set_declaresRoutes metadata
      else metadata
  | _ => metadata
  end.

Definition visit_FunctionDeclaration (n : node) (metadata : file_metadata)
  : file_metadata :=
  match n with
  | FunctionDeclaration (Some name) _ _ =>
      if isReactComponent n then push_components name metadata else metadata
  | _ => metadata
  end.

(** First [if] of the [VariableDeclarator] visitor. *)
Definition visit_VariableDeclarator_component (n : node) (metadata : file_metadata)
  : file_metadata :=
  match n with
  | VariableDeclarator i (Some (ArrowFunctionExpression _ _)) =>
      match node_name i with
      | Some name =>
          if truthy name && starts_upper name
          then push_components name metadata
          else metadata
      | None => metadata
      end
  | _ => metadata
  end.

(** Second [if] of the [VariableDeclarator] visitor. *)
Definition visit_VariableDeclarator_state (n : node) (metadata : file_metadata)
  : file_metadata :=
  match n with
  | VariableDeclarator (ArrayPattern (Some (Identifier stateVarName) :: _))
      (Some (CallExpression callee _)) =>
      if bool_decide (node_name callee = Some "useState") then
        let metadata := push_stateVariables stateVarName metadata in
        let metadata :=
          if negb (includes (usesHooks metadata) "useState")
          then push_usesHooks "useState" metadata
          else metadata in
        set_usesState metadata
      else metadata
  | _ => metadata
  end.

Definition visit_VariableDeclarator (n : node) (metadata : file_metadata)
  : file_metadata :=
  visit_VariableDeclarator_state n
    (visit_VariableDeclarator_component n metadata).

Definition visit_CallExpression (n : node) (metadata : file_metadata) : file_metadata :=
  match n with
  | CallExpression c _ =>
      let callee := node_name c in
      let metadata :=
        if bool_decide (callee = Some "useState")
        then push_usesHooks "useState" (set_usesState metadata)
        else metadata in
      let metadata :=
        if bool_decide (callee = Some "useEffect")
        then push_usesHooks "useEffect" (set_usesEffect metadata)
        else metadata in
      let metadata :=
        if bool_decide (callee = Some "useContext")
        then
          let metadata := set_usesContext metadata in
          if negb (includes (usesHooks metadata) "useContext")
          then push_usesHooks "useContext" metadata
          else metadata
        else metadata in
      match callee with
      | Some callee =>
          if truthy callee && startsWith callee "use"
             && negb (includes (usesHooks metadata) callee)
          then push_usesHooks callee metadata
          else metadata
      | None => metadata
      end
  | _ => metadata
  end.

(** The visitor object passed to [traverse]: the handler Babel calls when it
    enters a node, chosen by the node's type. *)
Definition enter (fs : FileSystem) (filePath : string) (n : node)
    (metadata : file_metadata) : file_metadata :=
  match n with
  | ImportDeclaration _ _ => visit_ImportDeclaration fs filePath n metadata
  | FunctionDeclaration _ _ _ => visit_FunctionDeclaration n metadata
  | VariableDeclarator _ _ => visit_VariableDeclarator n metadata
  | CallExpression _ _ => visit_CallExpression n metadata
  | _ => metadata
  end.

(** ** Babel's [traverse]

    Depth first: the handler of a node runs when the node is entered, before
    its children are visited; the handlers do not change the tree.  The call
    either throws, and then whatever the handlers did is lost with the local
    object they wrote to, or it completes after the handlers have run on
    every node. *)

Section Traverse.

Variable visit : node -> file_metadata -> file_metadata.

(** The visits at and below one node, for a walk that completes. *)
Fixpoint walk (n : node) (st : file_metadata) : file_metadata :=
  let st := visit n st in
  let walk_all := fold_left (fun st c => walk c st) in
  match n with
  | Identifier _ => st
  | ArrayPattern elements =>
      fold_left
        (fun st e => match e with Some c => walk c st | None => st end)
        elements st
  | ImportDeclaration _ _ => st
  | FunctionDeclaration _ params body
  | FunctionExpression _ params body
  | ArrowFunctionExpression params body =>
      walk body (walk_all params st)
  | VariableDeclarator i init =>
      let st := walk i st in
      match init with Some e => walk e st | None => st end
  | CallExpression callee arguments =>
      walk_all arguments (walk callee st)
  | OtherNode children => walk_all children st
  end.

(** The visits in the tree of a file, for a walk that completes: the root
    itself is not visited, its descendants are. *)
Definition walk_file (ast : file_ast) (st : file_metadata) : file_metadata :=
  fold_left (fun st c => walk c st) (body ast) st.

(** [traverse(ast, visitors)]: [None] when the call throws. *)
Definition traverse (ast : file_ast) (st : file_metadata)
  : option file_metadata :=
  if traverse_throws ast then None else Some (walk_file ast st).

End Traverse.

(** ** [parseFile] *)

Definition initial_metadata (filePath code : string) : file_metadata :=
  {| id := replace_backslashes (path_relative projectRoot filePath);
     linesOfCode := split_newline_length code;
     components := [];
     usesState := false;
     usesEffect := false;
     usesHooks := [];
     usesContext := false;
     declaresRoutes := false;
     stateVariables := [];
     imports := [];
     fileType := remove_first_dot (path_extname filePath) |}.

(** The record the visitors of [parseFile] build for a parsed file when the
    traversal completes. *)
Definition classify (fs : FileSystem) (filePath code : string)
    (ast : file_ast) : file_metadata :=
  walk_file (enter fs filePath) ast (initial_metadata filePath code).

Definition parseFile (fs : FileSystem) (filePath : string) : result file_metadata :=
  match readFileSync fs filePath with
  | None => Throw (ReadError filePath)
  | Some code =>
      match parser_parse code with
      | None => Throw (SyntaxError filePath)
      | Some ast =>
          match
            traverse (enter fs filePath) ast (initial_metadata filePath code)
          with
          | None => Throw (TypeError filePath)
          | Some metadata => Ok metadata
          end
      end
  end.

(** ** [main]: the two passes of the graph assembly *)

Definition state_node_id (fileId stateVar : string) : string :=
  fileId +:+ "::state::" +:+ stateVar.

Definition push_node (n : graph_node) (g : graph) : graph :=
  Graph (nodes g ++ [n]) (edges g).

Definition push_edge (e : edge) (g : graph) : graph :=
  Graph (nodes g) (edges g ++ [e]).

(** Body of the inner loop of the first pass. *)
Definition add_state_variable (metadata : file_metadata) (g : graph)
    (stateVar : string) : graph :=
  let stateNodeId := state_node_id (id metadata) stateVar in
  push_edge (Edge (id metadata) stateNodeId state_edge)
    (push_node (StateNode stateNodeId stateVar (id metadata)) g).

(** Body of the first loop, after [parseFile] has returned. *)
Definition add_file (metadata : file_metadata)
    (st : graph * gmap string file_metadata) : graph * gmap string file_metadata :=
  let '(g, fileMap) := st in
  let fileMap := <[id metadata := metadata]> fileMap in
  let g := push_node (FileNode metadata) g in
  (fold_left (add_state_variable metadata) (stateVariables metadata) g,
   fileMap).

Fixpoint first_pass (fs : FileSystem) (files : list string)
    (st : graph * gmap string file_metadata)
  : result (graph * gmap string file_metadata) :=
  match files with
  | [] => Ok st
  | file :: rest =>
      let* metadata := parseFile fs file in
      first_pass fs rest (add_file metadata st)
  end.

(** Body of the second loop.  The keys of [fileMap] and the import targets
    are paths that end in a file extension, so a lookup never meets a
    property inherited from [Object.prototype]: [fileMap[target]] is truthy
    exactly when [target] is a key. *)
Definition add_import_edges (fileMap : gmap string file_metadata) (g : graph)
    (n : graph_node) : graph :=
  match n with
  | FileNode m =>
      fold_left
        (fun g target =>
           match fileMap !! target with
           | Some _ => push_edge (Edge (id m) target imports_edge) g
           | None => g
           end)
        (imports m) g
  | StateNode _ _ _ => g
  end.

Definition second_pass (fileMap : gmap string file_metadata) (g : graph) : graph :=
  fold_left (add_import_edges fileMap) (nodes g) g.

(** [main], up to the graph that is handed to [JSON.stringify]; [files] is
    the list returned by [glob]. *)
Definition main (fs : FileSystem) (files : list string) : result graph :=
  let* st := first_pass fs files (Graph [] [], ∅) in
  let '(g, fileMap) := st in
  Ok (second_pass fileMap g).

End GraphGenerator.

(** ** The nodes a traversal visits *)

(** The child nodes of a node, in the order Babel visits them. *)
Definition children (n : node) : list node :=
  match n with
  | Identifier _ | ImportDeclaration _ _ => []
  | ArrayPattern elements => omap (fun e => e) elements
  | FunctionDeclaration _ params body
  | FunctionExpression _ params body
  | ArrowFunctionExpression params body => params ++ [body]
  | VariableDeclarator i init => i :: option_list init
  | CallExpression callee arguments => callee :: arguments
  | OtherNode children => children
  end.

(** All nodes of a tree, parents before children, left to right. *)
Fixpoint preorder (n : node) : list node :=
  n ::
  match n with
  | Identifier _ | ImportDeclaration _ _ => []
  | ArrayPattern elements =>
      flat_map (fun e => match e with Some c => preorder c | None => [] end)
        elements
  | FunctionDeclaration _ params body
  | FunctionExpression _ params body
  | ArrowFunctionExpression params body =>
      flat_map preorder params ++ preorder body
  | VariableDeclarator i init =>
      preorder i ++ match init with Some e => preorder e | None => [] end
  | CallExpression callee arguments =>
      preorder callee ++ flat_map preorder arguments
  | OtherNode children => flat_map preorder children
  end.

(** The nodes [traverse] visits in the tree of a file, in order. *)
Definition visited (ast : file_ast) : list node :=
  flat_map preorder (body ast).


(** ** The recognition rules in the words of the specification

    These definitions follow the text of the specification, not the code;
    the theorems compare them with what the visitors record. *)

Definition is_arrow_function (e : node) : bool :=
  match e with ArrowFunctionExpression _ _ => true | _ => false end.

(** A function expression: [function (..) {..}] or [(..) => ..]. *)
Definition is_function_expression (e : node) : bool :=
  match e with
  | FunctionExpression _ _ _ | ArrowFunctionExpression _ _ => true
  | _ => false
  end.

(** Component: a named function declaration, or a variable binding
    initialized to a function expression (as [function_expression] decides),
    whose identifier starts with an uppercase letter. *)
Definition component_name (function_expression : node -> bool) (n : node)
  : option string :=
  match n with
  | FunctionDeclaration (Some name) _ _ =>
      if starts_upper name then Some name else None
  | VariableDeclarator (Identifier name) (Some init) =>
      if function_expression init && starts_upper name then Some name
      else None
  | _ => None
  end.

Definition is_useState_call (e : node) : bool :=
  match e with
  | CallExpression (Identifier name) _ => String.eqb name "useState"
  | _ => false
  end.

(** State variable: a binding whose left-hand side is a positional
    destructuring pattern with at least [min_elements] elements, the first
    an identifier, and whose right-hand side is a call to [useState]; the
    name is the first destructured identifier. *)
Definition state_binding_name (min_elements : nat) (n : node)
  : option string :=
  match n with
  | VariableDeclarator (ArrayPattern elements) (Some rhs) =>
      if bool_decide (min_elements ≤ length elements) && is_useState_call rhs
      then match elements with
           | Some (Identifier x) :: _ => Some x
           | _ => None
           end
      else None
  | _ => None
  end.

(** Hook call: an invocation whose callee is a plain identifier beginning
    with [use]. *)
Definition hook_call_name (n : node) : option string :=
  match n with
  | CallExpression (Identifier name) _ =>
      if startsWith name "use" then Some name else None
  | _ => None
  end.

Section Rules.

Context `{Platform}.

(** The identity of a file: its path relative to the project root. *)
Definition fileId (filePath : string) : string :=
  replace_backslashes (path_relative projectRoot filePath).

(** The path ends with one of the extensions [glob] selects. *)
Definition has_source_extension (p : string) : Prop :=
  exists stem ext, ext ∈ fileExtensions /\ p = stem +:+ ext.

(** The base directory of a resolution. *)
Definition base_directory (fromFile importPath : string) : string :=
  if startsWith importPath "." then path_dirname fromFile else projectRoot.

(** The candidates of a resolution, in priority order; [<base>] is the
    specifier resolved against the base directory. *)
Definition candidates (fromFile importPath : string) : list string :=
  let base := path_resolve (base_directory fromFile importPath) importPath in
  ((fun ext => base +:+ ext) <$> fileExtensions)
  ++ ((fun ext => path_join base ("index" +:+ ext)) <$> fileExtensions).

(** The file an import statement of [fromFile] resolves to, as the identity
    recorded for it. *)
Definition import_target (fs : FileSystem) (fromFile : string) (n : node)
  : option string :=
  match n with
  | ImportDeclaration importPath _ =>
      match resolveImportPath fs fromFile importPath with
      | Some importFile =>
          if truthy importFile then Some (fileId importFile) else None
      | None => None
      end
  | _ => None
  end.




Definition file_node_ids (g : graph) : list string :=
  omap (fun n => match n with FileNode m => Some (id m) | _ => None end)
    (nodes g).

(** The flags agree with the hook names. *)
Definition flags_agree (m : file_metadata) : Prop :=
  (usesState m = true <-> "useState" ∈ usesHooks m) /\
  (usesEffect m = true <-> "useEffect" ∈ usesHooks m) /\
  (usesContext m = true <-> "useContext" ∈ usesHooks m).

End Rules.

(** ** Invariants of the traversal *)

(** The state hook has been recorded: the flag is set and the name is among
    the hook names. *)
Definition state_hook_recorded (m : file_metadata) : Prop :=
  usesState m = true /\ "useState" ∈ usesHooks m.

(** [m'] extends [m]: flags are only ever set, hook names only appended. *)
Definition grows (m m' : file_metadata) : Prop :=
  (usesState m = true -> usesState m' = true) /\
  (usesEffect m = true -> usesEffect m' = true) /\
  (usesContext m = true -> usesContext m' = true) /\
  exists added, usesHooks m' = usesHooks m ++ added.

(** ** The assembly as a function of the records *)

Section Assembly.

Context `{Platform}.

(** The records of the files in order, or the first exception. *)
Fixpoint parse_all (fs : FileSystem) (files : list string)
  : result (list file_metadata) :=
  match files with
  | [] => Ok []
  | file :: rest =>
      let* metadata := parseFile fs file in
      let* records := parse_all fs rest in
      Ok (metadata :: records)
  end.

(** The two passes on the records of the files. *)
Definition assemble (records : list file_metadata) : graph :=
  let '(g, fileMap) :=
    fold_left (fun st metadata => add_file metadata st) records
      (Graph [] [], ∅) in
  second_pass fileMap g.

(** The nodes and edges one record contributes. *)
Definition state_node_of (m : file_metadata) (stateVar : string) : graph_node :=
  StateNode (state_node_id (id m) stateVar) stateVar (id m).

Definition state_edge_of (m : file_metadata) (stateVar : string) : edge :=
  Edge (id m) (state_node_id (id m) stateVar) state_edge.

Definition imports_edge_of (m : file_metadata) (target : string) : edge :=
  Edge (id m) target imports_edge.

Definition record_nodes (m : file_metadata) : list graph_node :=
  FileNode m :: (state_node_of m <$> stateVariables m).

Definition record_state_edges (m : file_metadata) : list edge :=
  state_edge_of m <$> stateVariables m.

Definition record_imports_edges (known : string -> bool) (m : file_metadata)
  : list edge :=
  imports_edge_of m <$> List.filter known (imports m).

(** The keys of [fileMap] after the first pass over [records]. *)
Definition known_file (records : list file_metadata) (target : string) : bool :=
  bool_decide (target ∈ id <$> records).

End Assembly.

(** ** Further readings of the visitors *)

(** An import declaration that names [Route] or [Routes] among the bindings
    it imports from [react-router-dom]. *)
Definition is_route_import (n : node) : bool :=
  match n with
  | ImportDeclaration importPath specifiers =>
      String.eqb importPath "react-router-dom"
      && existsb is_route_specifier specifiers
  | _ => false
  end.

(** A call whose callee is the plain identifier [name]. *)
Definition is_call_to (name : string) (n : node) : bool :=
  match n with
  | CallExpression (Identifier callee) _ => String.eqb callee name
  | _ => false
  end.

(** How often [x] occurs in [l]. *)
Definition occurrences (x : string) (l : list string) : nat :=
  length (List.filter (String.eqb x) l).

(** How many of the nodes are calls to [name]. *)
Definition calls_to (name : string) (ns : list node) : nat :=
  length (List.filter (is_call_to name) ns).

(** Hook names other than the two that are pushed without a test. *)
Definition tested_hook_name (x : string) : Prop :=
  x <> "useState" /\ x <> "useEffect".

#[global] Instance tested_hook_name_dec (x : string) :
  Decision (tested_hook_name x).
Proof. unfold tested_hook_name. apply _. Defined.

(** ** Scenarios: a concrete platform and small project trees

    POSIX paths without [.] or [..] segments other than a leading [./], which
    is all the scenarios use.  The parser is a table from source text to the
    tree Babel builds for it; a text outside the table is a syntax error.
    [traverse] completes on every tree of the table. *)

Module Scenario.

Fixpoint drop_string (k : nat) (s : string) : string :=
  match k, s with
  | S k, String _ r => drop_string k r
  | _, _ => s
  end.

Fixpoint dirname (p : string) : string :=
  match p with
  | EmptyString => EmptyString
  | String c r => if has_char slash r then String c (dirname r) else EmptyString
  end.

Fixpoint extname (p : string) : string :=
  match p with
  | EmptyString => EmptyString
  | String c r =>
      if has_char "."%char r then extname r
      else if Ascii.eqb c "."%char then p else EmptyString
  end.

Definition resolve (base p : string) : string :=
  if startsWith p "/" then p
  else if startsWith p "./" then base +:+ "/" +:+ drop_string 2 p
  else base +:+ "/" +:+ p.

Definition join (a b : string) : string := a +:+ "/" +:+ b.

Definition relative (from to : string) : string :=
  if startsWith to (from +:+ "/") then drop_string (S (String.length from)) to
  else to.

(** Node types that no visitor looks at. *)
Definition VariableDeclaration (declarations : list node) : node :=
  OtherNode declarations.
Definition BlockStatement (body : list node) : node := OtherNode body.
Definition NumericLiteral : node := OtherNode [].
Definition BooleanLiteral : node := OtherNode [].

Definition useState_binding (names : list string) (arg : node) : node :=
  VariableDeclaration
    [VariableDeclarator (ArrayPattern ((fun x => Some (Identifier x)) <$> names))
       (Some (CallExpression (Identifier "useState") [arg]))].

(** The trees of the source texts of the scenarios. *)
Definition counter_ast : file_ast :=
  File [useState_binding ["count"; "setCount"] NumericLiteral].

Definition readonly_binding : node :=
  VariableDeclarator (ArrayPattern [Some (Identifier "count")])
    (Some (CallExpression (Identifier "useState") [NumericLiteral])).

Definition readonly_ast : file_ast :=
  File [VariableDeclaration [readonly_binding]].

Definition function_expression_binding : node :=
  VariableDeclarator (Identifier "Header")
    (Some (FunctionExpression None [] (BlockStatement []))).

Definition function_expression_ast : file_ast :=
  File [VariableDeclaration [function_expression_binding]].

Definition header_ast : file_ast :=
  File [FunctionDeclaration (Some "Header") [] (BlockStatement []);
        FunctionDeclaration (Some "helper") [] (BlockStatement [])].

Definition menu_ast : file_ast :=
  File [FunctionDeclaration (Some "Menu") []
          (BlockStatement [useState_binding ["open"; "setOpen"] BooleanLiteral]);
        FunctionDeclaration (Some "Dialog") []
          (BlockStatement [useState_binding ["open"; "setOpen"] BooleanLiteral])].

Definition a_ast : file_ast :=
  File [ImportDeclaration "./b" [ImportSpecifier (Some "b") "b"];
        ImportDeclaration "react" [ImportDefaultSpecifier "React"]].

(** [export const b = 1;]: an [ExportNamedDeclaration] around the
    declaration. *)
Definition b_ast : file_ast :=
  File [OtherNode
          [VariableDeclaration
             [VariableDeclarator (Identifier "b") (Some NumericLiteral)]]].

(** Source texts and their trees. *)
Definition sources : list (string * file_ast) :=
  [ ("const [count, setCount] = useState(0);", counter_ast);
    ("const [count] = useState(0);", readonly_ast);
    ("const Header = function () {};", function_expression_ast);
    ("function Header(){} function helper(){}", header_ast);
    ("function Menu() { const [open, setOpen] = useState(false); } function Dialog() { const [open, setOpen] = useState(true); }",
     menu_ast);
    ("import { b } from './b'; import React from 'react';", a_ast);
    ("export const b = 1;", b_ast) ].

Fixpoint lookup_text {A : Type} (key : string) (table : list (string * A))
  : option A :=
  match table with
  | [] => None
  | (k, v) :: rest => if String.eqb key k then Some v else lookup_text key rest
  end.

#[export] Instance platform : Platform := {|
  path_dirname := dirname;
  path_resolve := resolve;
  path_join := join;
  path_relative := relative;
  path_extname := extname;
  script_dirname := "/Users/aneesh/GraphRagSystem";
  parser_parse := fun code => lookup_text code sources;
  traverse_throws := fun _ => false
|}.

(** A filesystem holding the given files. *)
Definition filesystem (files : list (string * string)) : FileSystem := {|
  existsSync := fun p => bool_decide (is_Some (lookup_text p files));
  readFileSync := fun p => lookup_text p files
|}.

Definition src (name : string) : string :=
  "/Users/aneesh/grafana/packages/grafana-ui/src/" +:+ name.

(** Scenario A: [a.ts] imports [./b], and [b.ts] is next to it. *)
Definition project_a : list (string * string) :=
  [ (src "a.ts", "import { b } from './b'; import React from 'react';");
    (src "b.ts", "export const b = 1;") ].

(** Scenario D: a single state binding. *)
Definition project_counter : list (string * string) :=
  [ (src "Counter.jsx", "const [count, setCount] = useState(0);") ].

(** A state binding that destructures only the value. *)
Definition project_readonly : list (string * string) :=
  [ (src "Label.jsx", "const [count] = useState(0);") ].

(** A component bound to a [function] expression. *)
Definition project_function_expression : list (string * string) :=
  [ (src "Header.jsx", "const Header = function () {};") ].

(** Scenario C. *)
Definition project_header : list (string * string) :=
  [ (src "x.tsx", "function Header(){} function helper(){}") ].

(** Two components of one file, each with a state variable [open]. *)
Definition project_menu : list (string * string) :=
  [ (src "Menu.jsx", "function Menu() { const [open, setOpen] = useState(false); } function Dialog() { const [open, setOpen] = useState(true); }") ].

(** Scenario F: the second of three files does not parse. *)
Definition project_broken : list (string * string) :=
  [ (src "a.ts", "import { b } from './b'; import React from 'react';");
    (src "broken.js", "function (");
    (src "b.ts", "export const b = 1;") ].

(** The records the classifier builds for some of these files. *)
Definition counter_record : file_metadata :=
  {| id := "Counter.jsx"; linesOfCode := 1; components := [];
     usesState := true; usesEffect := false;
     usesHooks := ["useState"; "useState"]; usesContext := false;
     declaresRoutes := false; stateVariables := ["count"]; imports := [];
     fileType := "jsx" |}.

Definition header_record : file_metadata :=
  {| id := "x.tsx"; linesOfCode := 1; components := ["Header"];
     usesState := false; usesEffect := false; usesHooks := [];
     usesContext := false; declaresRoutes := false; stateVariables := [];
     imports := []; fileType := "tsx" |}.

Definition a_record : file_metadata :=
  {| id := "a.ts"; linesOfCode := 1; components := [];
     usesState := false; usesEffect := false; usesHooks := [];
     usesContext := false; declaresRoutes := false; stateVariables := [];
     imports := ["b.ts"]; fileType := "ts" |}.

Definition b_record : file_metadata :=
  {| id := "b.ts"; linesOfCode := 1; components := [];
     usesState := false; usesEffect := false; usesHooks := [];
     usesContext := false; declaresRoutes := false; stateVariables := [];
     imports := []; fileType := "ts" |}.

Definition menu_record : file_metadata :=
  {| id := "Menu.jsx"; linesOfCode := 1; components := ["Menu"; "Dialog"];
     usesState := true; usesEffect := false;
     usesHooks := ["useState"; "useState"; "useState"]; usesContext := false;
     declaresRoutes := false; stateVariables := ["open"; "open"]; imports := [];
     fileType := "jsx" |}.


Definition graph_counter : graph :=
  {| nodes := [FileNode counter_record;
               StateNode "Counter.jsx::state::count" "count" "Counter.jsx"];
     edges := [Edge "Counter.jsx" "Counter.jsx::state::count" state_edge] |}.

Definition graph_menu : graph :=
  {| nodes := [FileNode menu_record;
               StateNode "Menu.jsx::state::open" "open" "Menu.jsx";
               StateNode "Menu.jsx::state::open" "open" "Menu.jsx"];
     edges := [Edge "Menu.jsx" "Menu.jsx::state::open" state_edge;
               Edge "Menu.jsx" "Menu.jsx::state::open" state_edge] |}.

(** [project_a] with one more file, which is no candidate of [./b]. *)
Definition project_a_extended : list (string * string) :=
  project_a ++ [ (src "c.ts", "export const b = 1;") ].

End Scenario.

(** ** More scenarios: effects, custom hooks and routes *)

Module ScenarioHooks.

Definition ExpressionStatement (e : node) : node := OtherNode [e].

(** [obj.prop]: a [MemberExpression]. *)
Definition MemberExpression (object property : node) : node :=
  OtherNode [object; property].

Definition call (callee : string) (args : list node) : node :=
  ExpressionStatement (CallExpression (Identifier callee) args).

Definition effects_ast : file_ast :=
  File [call "useEffect" [Identifier "load"];
        call "useEffect" [Identifier "save"];
        call "useTheme" [];
        call "useTheme" [];
        ExpressionStatement
          (CallExpression
             (MemberExpression (Identifier "React") (Identifier "useMemo"))
             [Identifier "f"])].

Definition routes_ast : file_ast :=
  File [ImportDeclaration "react-router-dom"
          [ImportSpecifier (Some "Route") "Route"];
        ImportDeclaration "./Menu" [ImportDefaultSpecifier "Menu"]].

Definition sources : list (string * file_ast) :=
  [ ("useEffect(load); useEffect(save); useTheme(); useTheme(); React.useMemo(f);",
     effects_ast);
    ("import { Route } from 'react-router-dom'; import Menu from './Menu';",
     routes_ast) ]
  ++ Scenario.sources.

Definition platform : Platform := {|
  path_dirname := Scenario.dirname;
  path_resolve := Scenario.resolve;
  path_join := Scenario.join;
  path_relative := Scenario.relative;
  path_extname := Scenario.extname;
  script_dirname := "/Users/aneesh/GraphRagSystem";
  parser_parse := fun code => Scenario.lookup_text code sources;
  traverse_throws := fun _ => false
|}.

Definition project_effects : list (string * string) :=
  [ (Scenario.src "Effects.jsx",
     "useEffect(load); useEffect(save); useTheme(); useTheme(); React.useMemo(f);") ].

(** Scenario E, next to the file it imports. *)
Definition project_routes : list (string * string) :=
  [ (Scenario.src "App.jsx",
     "import { Route } from 'react-router-dom'; import Menu from './Menu';");
    (Scenario.src "Menu.jsx",
     "function Menu() { const [open, setOpen] = useState(false); } function Dialog() { const [open, setOpen] = useState(true); }") ].

Definition effects_record : file_metadata :=
  {| id := "Effects.jsx"; linesOfCode := 1; components := [];
     usesState := false; usesEffect := true;
     usesHooks := ["useEffect"; "useEffect"; "useTheme"];
     usesContext := false; declaresRoutes := false; stateVariables := [];
     imports := []; fileType := "jsx" |}.

Definition app_record : file_metadata :=
  {| id := "App.jsx"; linesOfCode := 1; components := [];
     usesState := false; usesEffect := false; usesHooks := [];
     usesContext := false; declaresRoutes := true; stateVariables := [];
     imports := ["Menu.jsx"]; fileType := "jsx" |}.

Definition graph_routes : graph :=
  {| nodes := [FileNode app_record;
               FileNode Scenario.menu_record;
               StateNode "Menu.jsx::state::open" "open" "Menu.jsx";
               StateNode "Menu.jsx::state::open" "open" "Menu.jsx"];
     edges := [Edge "Menu.jsx" "Menu.jsx::state::open" state_edge;
               Edge "Menu.jsx" "Menu.jsx::state::open" state_edge;
               Edge "App.jsx" "Menu.jsx" imports_edge] |}.

End ScenarioHooks.
(** * Properties *)

Section NodeInduction.

Variable P : node -> Prop.
Hypothesis step : forall n, Forall P (children n) -> P n.

Definition Forall_nodes (rec : forall n, P n) : forall l, Forall P l :=
  fix go l :=
    match l with
    | [] => @List.Forall_nil _ P
    | c :: r => @List.Forall_cons _ P c r (rec c) (go r)
    end.

Definition Forall_elements (rec : forall n, P n)
  : forall l : list (option node), Forall P (omap (fun e => e) l) :=
  fix go l :=
    match l with
    | [] => @List.Forall_nil _ P
    | Some c :: r => @List.Forall_cons _ P c _ (rec c) (go r)
    | None :: r => go r
    end.

Definition Forall_snoc (rec : forall n, P n) (body : node)
  : forall l, Forall P (l ++ [body]) :=
  fix go l :=
    match l with
    | [] => @List.Forall_cons _ P body [] (rec body) (@List.Forall_nil _ P)
    | c :: r => @List.Forall_cons _ P c _ (rec c) (go r)
    end.

Fixpoint node_children_ind (n : node) : P n :=
  step n
    match n return Forall P (children n) with
    | Identifier _ | ImportDeclaration _ _ => @List.Forall_nil _ P
    | ArrayPattern elements => Forall_elements node_children_ind elements
    | FunctionDeclaration _ params body
    | FunctionExpression _ params body
    | ArrowFunctionExpression params body =>
        Forall_snoc node_children_ind body params
    | VariableDeclarator i init =>
        @List.Forall_cons _ P i _ (node_children_ind i)
          match init return Forall P (option_list init) with
          | Some e => @List.Forall_cons _ P e [] (node_children_ind e) (@List.Forall_nil _ P)
          | None => @List.Forall_nil _ P
          end
    | CallExpression callee arguments =>
        @List.Forall_cons _ P callee _ (node_children_ind callee)
          (Forall_nodes node_children_ind arguments)
    | OtherNode children => Forall_nodes node_children_ind children
    end.

End NodeInduction.

Lemma preorder_children (n : node) :
  preorder n = n :: flat_map preorder (children n).
Proof.
  destruct n as [| elements | | ? params body | ? params body | params body
                 | i init | callee arguments |]; simpl; f_equal.
  - induction elements as [|[c|] r IH]; simpl; [done | by rewrite IH | done].
  - by rewrite flat_map_app; simpl; rewrite app_nil_r.
  - by rewrite flat_map_app; simpl; rewrite app_nil_r.
  - by rewrite flat_map_app; simpl; rewrite app_nil_r.
  - destruct init; simpl; by rewrite ?app_nil_r.
Qed.

Lemma walk_children visit (n : node) (st : file_metadata) :
  walk visit n st =
  fold_left (fun st c => walk visit c st) (children n) (visit n st).
Proof.
  destruct n as [| elements | | ? params body | ? params body | params body
                 | i init | callee arguments |]; simpl; try done.
  - generalize (visit (ArrayPattern elements) st).
    induction elements as [|[c|] r IH]; simpl; auto.
  - by rewrite fold_left_app.
  - by rewrite fold_left_app.
  - by rewrite fold_left_app.
  - by destruct init.
Qed.

(** Babel's traversal calls the handler once on every node, in pre-order. *)
Lemma walk_preorder visit (n : node) :
  forall st,
    walk visit n st = fold_left (fun st x => visit x st) (preorder n) st.
Proof.
  induction n as [n IH] using node_children_ind; intros st.
  rewrite walk_children, preorder_children; simpl.
  generalize (visit n st).
  induction IH as [|c r Hc _ IHr]; intros st'; simpl; [done|].
  by rewrite fold_left_app, <- Hc, IHr.
Qed.

Lemma walk_file_visited visit (ast : file_ast) (st : file_metadata) :
  walk_file visit ast st =
  fold_left (fun st x => visit x st) (visited ast) st.
Proof.
  unfold walk_file, visited. revert st.
  induction (body ast) as [|c r IH]; intros st; simpl; [done|].
  by rewrite fold_left_app, <- walk_preorder, IH.
Qed.

(** ** Folding handlers over the visited nodes *)

Lemma fold_left_field {A B S : Type} (f : S -> list B) (step : A -> S -> S)
    (g : A -> option B) :
  (forall x s, f (step x s) = f s ++ option_list (g x)) ->
  forall xs s, f (fold_left (fun s x => step x s) xs s) = f s ++ omap g xs.
Proof.
  intros Hstep xs. induction xs as [|x xs IH]; intros s; simpl.
  - by rewrite app_nil_r.
  - rewrite IH, Hstep. destruct (g x); simpl; by rewrite <- ?app_assoc, ?app_nil_r.
Qed.

Lemma fold_left_invariant {A S : Type} (step : A -> S -> S) (P : S -> Prop) :
  (forall x s, P s -> P (step x s)) ->
  forall xs s, P s -> P (fold_left (fun s x => step x s) xs s).
Proof.
  intros Hstep xs. induction xs as [|x xs IH]; intros s Hs; simpl; auto.
Qed.

Lemma fold_left_established {A S : Type} (step : A -> S -> S) (P : S -> Prop)
    (x : A) :
  (forall s, P (step x s)) ->
  (forall y s, P s -> P (step y s)) ->
  forall xs s, x ∈ xs -> P (fold_left (fun s y => step y s) xs s).
Proof.
  intros Hx Hstep xs. induction xs as [|y xs IH]; intros s Hin; simpl.
  - by apply elem_of_nil in Hin.
  - apply elem_of_cons in Hin as [<-|Hin]; [|by apply IH].
    by apply fold_left_invariant.
Qed.

(** ** What one visit records *)

Section Classifier.

Context `{Platform} (fs : FileSystem) (filePath : string).

Lemma useState_name_eqb (c : node) :
  bool_decide (node_name c = Some "useState") =
  match c with Identifier name => String.eqb name "useState" | _ => false end.
Proof.
  destruct c; simpl; try done.
  case_bool_decide as Hn; simplify_eq.
  - done.
  - symmetry. apply String.eqb_neq. congruence.
Qed.

Lemma enter_VariableDeclarator (i : node) (init : option node)
    (m : file_metadata) :
  enter fs filePath (VariableDeclarator i init) m =
  visit_VariableDeclarator_state (VariableDeclarator i init)
    (visit_VariableDeclarator_component (VariableDeclarator i init) m).
Proof. reflexivity. Qed.

(** The second [if] of the [VariableDeclarator] visitor fires on the
    bindings [state_binding_name 1] recognizes. *)
Lemma visit_state_spec (n : node) (m : file_metadata) :
  visit_VariableDeclarator_state n m =
  match state_binding_name 1 n with
  | Some x =>
      let m := push_stateVariables x m in
      set_usesState
        (if includes (usesHooks m) "useState" then m
         else push_usesHooks "useState" m)
  | None => m
  end.
Proof.
  destruct n as [| | | | | | i init | |]; try done.
  destruct i as [| [|[[x| | | | | | | |]|] elements] | | | | | | |];
    destruct init as [[| | | | | | | fn fargs |]|]; try done.
  all: unfold visit_VariableDeclarator_state, state_binding_name,
         is_useState_call; simpl length.
  all: rewrite ?useState_name_eqb, ?(bool_decide_true (1 ≤ _)) by lia; simpl.
  all: by repeat case_match.
Qed.

(** The first [if] of the [VariableDeclarator] visitor fires on the variable
    bindings [component_name is_arrow_function] recognizes. *)
Lemma visit_component_spec (n : node) (m : file_metadata) :
  visit_VariableDeclarator_component n m =
  match n with
  | VariableDeclarator _ _ =>
      match component_name is_arrow_function n with
      | Some name => push_components name m
      | None => m
      end
  | _ => m
  end.
Proof.
  destruct n as [| | | | | | i init | |]; try done.
  destruct i; destruct init as [[]|]; try done.
  unfold visit_VariableDeclarator_component, component_name; simpl.
  destruct name as [|c r]; [done|]. simpl. by case_match.
Qed.

Lemma visit_FunctionDeclaration_spec (n : node) (m : file_metadata) :
  visit_FunctionDeclaration n m =
  match n with
  | FunctionDeclaration _ _ _ =>
      match component_name is_arrow_function n with
      | Some name => push_components name m
      | None => m
      end
  | _ => m
  end.
Proof.
  destruct n as [| | | [name|] params body | | | | |]; try done.
  unfold visit_FunctionDeclaration, component_name; simpl. by case_match.
Qed.

Ltac unchanged :=
  unfold visit_ImportDeclaration, visit_FunctionDeclaration,
    visit_VariableDeclarator_component, visit_CallExpression;
  repeat case_match; done.

Lemma enter_stateVariables (n : node) (m : file_metadata) :
  stateVariables (enter fs filePath n m) =
  stateVariables m ++ option_list (state_binding_name 1 n).
Proof.
  destruct n as [| | | | | | i init | |];
    try (rewrite app_nil_r; unfold enter; unchanged).
  rewrite enter_VariableDeclarator, visit_state_spec.
  assert (Hc : stateVariables (visit_VariableDeclarator_component
            (VariableDeclarator i init) m) = stateVariables m) by unchanged.
  revert Hc. generalize (visit_VariableDeclarator_component
                           (VariableDeclarator i init) m); intros m' Hc.
  destruct (state_binding_name 1 _); simpl; rewrite ?app_nil_r; [|done].
  by case_match; simpl; rewrite Hc.
Qed.

Lemma enter_components (n : node) (m : file_metadata) :
  components (enter fs filePath n m) =
  components m ++ option_list (component_name is_arrow_function n).
Proof.
  destruct n as [| | | fid params body | | | i init | |];
    try (rewrite app_nil_r; unfold enter; unchanged).
  - unfold enter. rewrite visit_FunctionDeclaration_spec.
    destruct (component_name _ _); simpl; by rewrite ?app_nil_r.
  - rewrite enter_VariableDeclarator, visit_state_spec, visit_component_spec.
    assert (Hs : state_binding_name 1 (VariableDeclarator i init) = None
                 \/ component_name is_arrow_function
                      (VariableDeclarator i init) = None).
    { destruct i; simpl; auto. }
    cbv beta iota.
    destruct (state_binding_name 1 _) as [x|] eqn:Hst,
      (component_name is_arrow_function _) as [c|] eqn:Hc;
      simpl; rewrite ?app_nil_r; try done.
    + destruct Hs; congruence.
    + by case_match.
Qed.

Lemma enter_imports (n : node) (m : file_metadata) :
  imports (enter fs filePath n m) =
  imports m ++ option_list (import_target fs filePath n).
Proof.
  destruct n as [| | importPath specifiers | | | | i init | |];
    try (rewrite app_nil_r; unfold enter; unchanged).
  - unfold enter, visit_ImportDeclaration, import_target, fileId.
    destruct (resolveImportPath _ _ _) as [p|]; simpl;
      repeat case_match; simpl; rewrite ?app_nil_r; done.
  - rewrite enter_VariableDeclarator, visit_state_spec, app_nil_r.
    assert (Hc : imports (visit_VariableDeclarator_component
              (VariableDeclarator i init) m) = imports m) by unchanged.
    revert Hc. generalize (visit_VariableDeclarator_component
                             (VariableDeclarator i init) m); intros m' Hc.
    repeat (case_match; simpl); by rewrite ?Hc.
Qed.

Lemma enter_id (n : node) (m : file_metadata) :
  id (enter fs filePath n m) = id m.
Proof.
  destruct n as [| | | | | | i init | |]; try (unfold enter; unchanged).
  rewrite enter_VariableDeclarator, visit_state_spec.
  assert (Hc : id (visit_VariableDeclarator_component
            (VariableDeclarator i init) m) = id m) by unchanged.
  revert Hc. generalize (visit_VariableDeclarator_component
                           (VariableDeclarator i init) m); intros m' Hc.
  repeat (case_match; simpl); by rewrite ?Hc.
Qed.

(** ** The flags and the hook names *)

Lemma hook_names_distinct :
  "useState" ≠ "useEffect" /\ "useState" ≠ "useContext" /\
  "useEffect" ≠ "useContext".
Proof. done. Qed.

Lemma visit_CallExpression_flags (n : node) (m : file_metadata) :
  flags_agree m -> flags_agree (visit_CallExpression n m).
Proof.
  destruct hook_names_distinct as (Hse & Hsc & Hec).
  destruct n as [| | | | | | | c args |]; try done.
  destruct m; unfold flags_agree, visit_CallExpression, includes; simpl.
  intros (Hs & He & Hc).
  destruct (node_name c) as [callee|]; simpl.
  - repeat (case_bool_decide; simpl); repeat (case_match; simpl);
      simplify_eq; rewrite ?elem_of_app, ?list_elem_of_singleton;
      repeat case_bool_decide; intuition (simplify_eq; eauto).
  - repeat (case_bool_decide; simpl); simplify_eq; done.
Qed.

Lemma push_stateVariables_flags (x : string) (m : file_metadata) :
  flags_agree m -> flags_agree (push_stateVariables x m).
Proof. done. Qed.

Lemma push_components_flags (x : string) (m : file_metadata) :
  flags_agree m -> flags_agree (push_components x m).
Proof. done. Qed.

Lemma visit_state_flags (n : node) (m : file_metadata) :
  flags_agree m -> flags_agree (visit_VariableDeclarator_state n m).
Proof.
  destruct hook_names_distinct as (Hse & Hsc & Hec).
  rewrite visit_state_spec. destruct (state_binding_name 1 n) as [x|]; [|done].
  destruct m; unfold flags_agree, includes; simpl. intros (Hs & He & Hc).
  case_bool_decide; simpl; rewrite ?elem_of_app, ?list_elem_of_singleton;
    intuition (simplify_eq; eauto).
Qed.

Lemma enter_flags (n : node) (m : file_metadata) :
  flags_agree m -> flags_agree (enter fs filePath n m).
Proof.
  intros Hm.
  destruct n as [| | importPath specifiers | | | | i init | |]; try done.
  - unfold enter, visit_ImportDeclaration. by repeat case_match.
  - unfold enter. rewrite visit_FunctionDeclaration_spec.
    case_match; [by apply push_components_flags | done].
  - rewrite enter_VariableDeclarator. apply visit_state_flags.
    rewrite visit_component_spec.
    case_match; [by apply push_components_flags | done].
  - by apply visit_CallExpression_flags.
Qed.

(** A recognized state binding sets the flag and records the hook name. *)
Lemma enter_state_hook_recorded (n : node) (m : file_metadata) :
  is_Some (state_binding_name 1 n) ->
  state_hook_recorded (enter fs filePath n m).
Proof.
  intros [x Hx].
  destruct n as [| | | | | | i init | |]; try done.
  rewrite enter_VariableDeclarator, visit_state_spec, Hx.
  generalize (visit_VariableDeclarator_component (VariableDeclarator i init) m).
  intros m'. unfold state_hook_recorded, includes; simpl.
  case_bool_decide; simpl; [done|].
  split; [done|]. apply elem_of_app. right. by apply list_elem_of_singleton.
Qed.

(** Every visit only appends to [usesHooks] and never clears a flag. *)
Lemma grows_refl (m : file_metadata) : grows m m.
Proof. repeat split; try done. exists []. by rewrite app_nil_r. Qed.

Lemma grows_trans (m1 m2 m3 : file_metadata) :
  grows m1 m2 -> grows m2 m3 -> grows m1 m3.
Proof.
  intros (?&?&?&a&Ha) (?&?&?&b&Hb). repeat split; auto.
  exists (a ++ b). by rewrite Hb, Ha, app_assoc.
Qed.

Lemma visit_CallExpression_grows (n : node) (m : file_metadata) :
  grows m (visit_CallExpression n m).
Proof.
  destruct n as [| | | | | | | c args |]; try apply grows_refl.
  unfold visit_CallExpression.
  set (callee := node_name c).
  set (m1 := if bool_decide (callee = Some "useState") then _ else m).
  set (m2 := if bool_decide (callee = Some "useEffect") then _ else m1).
  set (m3 := if bool_decide (callee = Some "useContext") then _ else m2).
  assert (H1 : grows m m1).
  { subst m1. case_bool_decide; [|apply grows_refl].
    repeat split; try done. by exists ["useState"]. }
  assert (H2 : grows m1 m2).
  { subst m2. case_bool_decide; [|apply grows_refl].
    repeat split; try done. by exists ["useEffect"]. }
  assert (H3 : grows m2 m3).
  { subst m3. case_bool_decide; [|apply grows_refl].
    case_match; repeat split; try done.
    - by exists ["useContext"].
    - exists []. by rewrite app_nil_r. }
  apply (grows_trans _ m3); [eauto using grows_trans|].
  destruct callee as [name|]; [|apply grows_refl].
  case_match; [|apply grows_refl].
  repeat split; try done. by exists [name].
Qed.

Lemma enter_grows (n : node) (m : file_metadata) :
  grows m (enter fs filePath n m).
Proof.
  destruct n as [| | importPath specifiers | | | | i init | |];
    try apply grows_refl.
  - unfold enter, visit_ImportDeclaration.
    repeat case_match; apply grows_refl || (repeat split; try done;
      exists []; by rewrite app_nil_r).
  - unfold enter. rewrite visit_FunctionDeclaration_spec.
    repeat case_match; apply grows_refl || (repeat split; try done;
      exists []; by rewrite app_nil_r).
  - rewrite enter_VariableDeclarator, visit_state_spec, visit_component_spec.
    cbv beta iota.
    apply (grows_trans _ (match component_name is_arrow_function
                                  (VariableDeclarator i init) with
                          | Some name => push_components name m
                          | None => m end)).
    + case_match; [|apply grows_refl].
      repeat split; try done. exists []. by rewrite app_nil_r.
    + generalize (match component_name is_arrow_function
                         (VariableDeclarator i init) with
                  | Some name => push_components name m
                  | None => m end); intros m'.
      destruct (state_binding_name 1 _) as [x|]; [|apply grows_refl].
      simpl. case_match; repeat split; try done.
      * exists []. by rewrite app_nil_r.
      * by exists ["useState"].
  - apply visit_CallExpression_grows.
Qed.

Lemma enter_preserves_state_hook (n : node) (m : file_metadata) :
  state_hook_recorded m -> state_hook_recorded (enter fs filePath n m).
Proof.
  intros [Hs Hh]. destruct (enter_grows n m) as (Hs' & _ & _ & added & Ha).
  split; [auto|]. rewrite Ha. apply elem_of_app. by left.
Qed.

(** A hook-shaped call leaves its name among the hook names. *)
Lemma enter_hook_call_recorded (n : node) (m : file_metadata) (x : string) :
  hook_call_name n = Some x -> x ∈ usesHooks (enter fs filePath n m).
Proof.
  destruct n as [| | | | | | | [name| | | | | | | |] args |]; try done.
  simpl. destruct (startsWith name "use") eqn:Huse; [|done]. intros [= ->].
  unfold visit_CallExpression. cbv beta iota zeta delta [node_name].
  set (m1 := if bool_decide (Some x = Some "useState") then _ else m).
  set (m2 := if bool_decide (Some x = Some "useEffect") then _ else m1).
  set (m3 := if bool_decide (Some x = Some "useContext") then _ else m2).
  destruct x as [|c x]; [done|]. simpl truthy.
  unfold includes. case_bool_decide as Hin; simpl; [done|].
  apply elem_of_app. right. by apply list_elem_of_singleton.
Qed.

Lemma enter_preserves_hook (n : node) (m : file_metadata) (x : string) :
  x ∈ usesHooks m -> x ∈ usesHooks (enter fs filePath n m).
Proof.
  intros Hx. destruct (enter_grows n m) as (_ & _ & _ & added & ->).
  apply elem_of_app. by left.
Qed.

(** ** The record of a whole file *)

Lemma classify_fold (code : string) (ast : file_ast) :
  classify fs filePath code ast =
  fold_left (fun m n => enter fs filePath n m) (visited ast)
    (initial_metadata filePath code).
Proof. apply walk_file_visited. Qed.

Lemma classify_stateVariables (code : string) (ast : file_ast) :
  stateVariables (classify fs filePath code ast) =
  omap (state_binding_name 1) (visited ast).
Proof.
  rewrite classify_fold.
  by rewrite (fold_left_field stateVariables (enter fs filePath)
                (state_binding_name 1) enter_stateVariables).
Qed.

Lemma classify_components (code : string) (ast : file_ast) :
  components (classify fs filePath code ast) =
  omap (component_name is_arrow_function) (visited ast).
Proof.
  rewrite classify_fold.
  by rewrite (fold_left_field components (enter fs filePath)
                (component_name is_arrow_function) enter_components).
Qed.

Lemma classify_imports (code : string) (ast : file_ast) :
  imports (classify fs filePath code ast) =
  omap (import_target fs filePath) (visited ast).
Proof.
  rewrite classify_fold.
  by rewrite (fold_left_field imports (enter fs filePath)
                (import_target fs filePath) enter_imports).
Qed.

Lemma classify_id (code : string) (ast : file_ast) :
  id (classify fs filePath code ast) = fileId filePath.
Proof.
  rewrite classify_fold.
  apply (fold_left_invariant (enter fs filePath)
           (fun m => id m = fileId filePath)); [|done].
  intros n m Hm. by rewrite enter_id.
Qed.

Lemma classify_flags_agree (code : string) (ast : file_ast) :
  flags_agree (classify fs filePath code ast).
Proof.
  rewrite classify_fold.
  apply (fold_left_invariant (enter fs filePath) flags_agree).
  - intros n m. apply enter_flags.
  - unfold flags_agree; simpl. by rewrite !elem_of_nil.
Qed.

Lemma classify_state_hook_recorded (code : string) (ast : file_ast)
    (n : node) :
  n ∈ visited ast -> is_Some (state_binding_name 1 n) ->
  state_hook_recorded (classify fs filePath code ast).
Proof.
  intros Hin Hn. rewrite classify_fold.
  apply (fold_left_established (enter fs filePath) state_hook_recorded n);
    [|apply enter_preserves_state_hook|done].
  intros m. by apply enter_state_hook_recorded.
Qed.

(** Every invocation whose callee is a plain identifier starting with [use]
    contributes its name to the hook names of the file. *)
Lemma classify_hook_calls_recorded (code : string) (ast : file_ast)
    (n : node) (x : string) :
  n ∈ visited ast -> hook_call_name n = Some x ->
  x ∈ usesHooks (classify fs filePath code ast).
Proof.
  intros Hin Hn. rewrite classify_fold.
  apply (fold_left_established (enter fs filePath)
           (fun m => x ∈ usesHooks m) n); [| |done].
  - intros m. by apply enter_hook_call_recorded.
  - intros n' m. apply enter_preserves_hook.
Qed.

End Classifier.

(** ** The two passes of [main] *)

Section AssemblyFacts.

Context `{Platform}.

Lemma first_pass_parse_all (fs : FileSystem) (files : list string) st :
  first_pass fs files st =
  let* records := parse_all fs files in
  Ok (fold_left (fun st metadata => add_file metadata st) records st).
Proof.
  revert st. induction files as [|file rest IH]; intros st; simpl; [done|].
  destruct (parseFile fs file) as [metadata|e]; simpl; [|done].
  rewrite IH. by destruct (parse_all fs rest).
Qed.

Lemma main_assemble (fs : FileSystem) (files : list string) :
  main fs files = let* records := parse_all fs files in Ok (assemble records).
Proof.
  unfold main, assemble. rewrite first_pass_parse_all.
  destruct (parse_all fs files) as [records|e]; simpl; [|done].
  by destruct (fold_left _ records _).
Qed.

Lemma add_state_variables (m : file_metadata) (vars : list string) (g : graph) :
  fold_left (add_state_variable m) vars g =
  Graph (nodes g ++ (state_node_of m <$> vars))
        (edges g ++ (state_edge_of m <$> vars)).
Proof.
  revert g. induction vars as [|v vars IH]; intros [ns es]; simpl.
  - by rewrite !app_nil_r.
  - rewrite IH. simpl. by rewrite <- !app_assoc.
Qed.

Lemma add_files (records : list file_metadata) (g : graph)
    (fileMap : gmap string file_metadata) :
  fold_left (fun st metadata => add_file metadata st) records (g, fileMap) =
  (Graph (nodes g ++ flat_map record_nodes records)
         (edges g ++ flat_map record_state_edges records),
   fold_left (fun fm metadata => <[id metadata := metadata]> fm)
     records fileMap).
Proof.
  revert g fileMap.
  induction records as [|m records IH]; intros [ns es] fileMap; simpl.
  - by rewrite !app_nil_r.
  - rewrite add_state_variables, IH. simpl.
    unfold record_state_edges. by rewrite <- !app_assoc.
Qed.

Lemma fileMap_keys (records : list file_metadata)
    (fileMap : gmap string file_metadata) (target : string) :
  is_Some (fold_left (fun fm metadata => <[id metadata := metadata]> fm)
             records fileMap !! target) <->
  is_Some (fileMap !! target) \/ target ∈ id <$> records.
Proof.
  revert fileMap. induction records as [|m records IH]; intros fileMap; simpl.
  - rewrite elem_of_nil. tauto.
  - rewrite IH, elem_of_cons, lookup_insert_is_Some.
    destruct (decide (id m = target)) as [->|Hne]; intuition eauto.
Qed.

Lemma add_import_edges_inner (fileMap : gmap string file_metadata)
    (m : file_metadata) (targets : list string) (g : graph) :
  fold_left
    (fun g target =>
       match fileMap !! target with
       | Some _ => push_edge (Edge (id m) target imports_edge) g
       | None => g
       end) targets g =
  Graph (nodes g)
    (edges g ++ (imports_edge_of m <$>
                 List.filter (fun t => bool_decide (is_Some (fileMap !! t)))
                   targets)).
Proof.
  revert g. induction targets as [|t targets IH]; intros [ns es]; simpl.
  - by rewrite app_nil_r.
  - rewrite IH. destruct (fileMap !! t) as [m'|] eqn:Ht; simpl.
    + by rewrite <- app_assoc.
    + done.
Qed.

Lemma second_pass_nodes (fileMap : gmap string file_metadata)
    (ns : list graph_node) (g : graph) :
  fold_left (add_import_edges fileMap) ns g =
  Graph (nodes g)
    (edges g ++
     flat_map
       (fun n =>
          match n with
          | FileNode m =>
              record_imports_edges
                (fun t => bool_decide (is_Some (fileMap !! t))) m
          | StateNode _ _ _ => []
          end) ns).
Proof.
  revert g. induction ns as [|n ns IH]; intros [ns0 es]; simpl.
  - by rewrite app_nil_r.
  - rewrite IH. destruct n as [m|]; simpl.
    + rewrite add_import_edges_inner. simpl. by rewrite <- app_assoc.
    + done.
Qed.

Lemma imports_edges_of_record_nodes (known : string -> bool)
    (records : list file_metadata) :
  flat_map
    (fun n =>
       match n with
       | FileNode m => record_imports_edges known m
       | StateNode _ _ _ => []
       end) (flat_map record_nodes records) =
  flat_map (record_imports_edges known) records.
Proof.
  induction records as [|m records IH]; simpl; [done|].
  rewrite flat_map_app, IH. f_equal.
  induction (stateVariables m) as [|v vars IHv]; simpl; [done|]. apply IHv.
Qed.

Lemma assemble_nodes (records : list file_metadata) :
  nodes (assemble records) = flat_map record_nodes records.
Proof.
  unfold assemble, second_pass. rewrite add_files. simpl.
  by rewrite second_pass_nodes.
Qed.

Lemma assemble_edges (records : list file_metadata) :
  edges (assemble records) =
  flat_map record_state_edges records ++
  flat_map (record_imports_edges (known_file records)) records.
Proof.
  unfold assemble, second_pass. rewrite add_files. simpl.
  rewrite second_pass_nodes. simpl. f_equal.
  rewrite imports_edges_of_record_nodes.
  apply flat_map_ext. intros m. unfold record_imports_edges. f_equal.
  apply filter_ext. intros t. unfold known_file.
  apply bool_decide_ext. rewrite fileMap_keys, lookup_empty.
  split; [intros [[? ?]|?]; done | auto].
Qed.

End AssemblyFacts.

(** ** Filtering the contributions of one record *)




Section Graphs.

Context `{Platform}.

Lemma parseFile_Ok (fs : FileSystem) (F : string) (m : file_metadata) :
  parseFile fs F = Ok m <->
  exists code ast,
    readFileSync fs F = Some code /\ parser_parse code = Some ast /\
    traverse_throws ast = false /\ m = classify fs F code ast.
Proof.
  unfold parseFile, traverse. split.
  - destruct (readFileSync fs F) as [code|] eqn:Hcode; [|done].
    destruct (parser_parse code) as [ast|] eqn:Hast; [|done].
    destruct (traverse_throws ast) eqn:Hthrows; [done|].
    intros [= <-]. by exists code, ast.
  - intros (code & ast & -> & -> & -> & ->). done.
Qed.

(** The record [parseFile] returns is the one the visitors build. *)
Lemma parseFile_classify (fs : FileSystem) (F code : string) (ast : file_ast)
    (m : file_metadata) :
  readFileSync fs F = Some code -> parser_parse code = Some ast ->
  parseFile fs F = Ok m -> m = classify fs F code ast.
Proof.
  intros Hcode Hast (code' & ast' & Hcode' & Hast' & _ & ->)%parseFile_Ok.
  congruence.
Qed.

(** [parseFile] throws exactly when the read fails, the parser rejects the
    text or the traversal rejects the tree. *)
Lemma parseFile_Throw (fs : FileSystem) (F : string) (e : exn) :
  parseFile fs F = Throw e <->
  (readFileSync fs F = None /\ e = ReadError F) \/
  (exists code, readFileSync fs F = Some code /\
     ((parser_parse code = None /\ e = SyntaxError F) \/
      (exists ast, parser_parse code = Some ast /\
                   traverse_throws ast = true /\ e = TypeError F))).
Proof.
  unfold parseFile, traverse.
  destruct (readFileSync fs F) as [code|] eqn:Hcode.
  - destruct (parser_parse code) as [ast|] eqn:Hast.
    + destruct (traverse_throws ast) eqn:Hthrows.
      * split.
        -- intros [= <-]. right. exists code. split; [done|]. right.
           by exists ast.
        -- intros [[? ?]|(code' & ? & [[? ?]|(ast' & ? & ? & ?)])];
             congruence.
      * split; [done|].
        intros [[? ?]|(code' & ? & [[? ?]|(ast' & ? & ? & ?)])];
          congruence.
    + split.
      * intros [= <-]. right. exists code. split; [done|]. by left.
      * intros [[? ?]|(code' & ? & [[? ?]|(ast' & ? & ? & ?)])];
          congruence.
  - split.
    + intros [= <-]. by left.
    + intros [[? ?]|(code' & ? & ?)]; congruence.
Qed.

Lemma parseFile_id (fs : FileSystem) (F : string) (m : file_metadata) :
  parseFile fs F = Ok m -> id m = fileId F.
Proof.
  intros (code & ast & _ & _ & _ & ->)%parseFile_Ok. apply classify_id.
Qed.

Lemma parse_all_Ok (fs : FileSystem) (files : list string)
    (records : list file_metadata) :
  parse_all fs files = Ok records <->
  Forall2 (fun F m => parseFile fs F = Ok m) files records.
Proof.
  revert records. induction files as [|F files IH]; intros records; simpl.
  - split; [intros [= <-]; constructor | by intros ->%Forall2_nil_inv_l].
  - destruct (parseFile fs F) as [m|e] eqn:HF; simpl.
    + destruct (parse_all fs files) as [rest|e] eqn:Hrest; simpl.
      * split.
        -- intros [= <-]. constructor; [done|]. by apply IH.
        -- intros (m' & rest' & Hm & Hrest' & ->)%Forall2_cons_inv_l.
           apply IH in Hrest'. congruence.
      * split; [done|].
        intros (m' & rest' & Hm & Hrest' & ->)%Forall2_cons_inv_l.
        apply IH in Hrest'. congruence.
    + split; [done|].
      intros (m' & rest' & Hm & _)%Forall2_cons_inv_l. congruence.
Qed.

(** [parse_all] throws exactly the exception of the first file that fails. *)
Lemma parse_all_Throw (fs : FileSystem) (files : list string) (e : exn) :
  parse_all fs files = Throw e <->
  exists before F after,
    files = before ++ F :: after /\
    (forall F', F' ∈ before -> exists m, parseFile fs F' = Ok m) /\
    parseFile fs F = Throw e.
Proof.
  induction files as [|F files IH]; simpl.
  - split; [done|]. intros (before & F & after & Hf & _). by destruct before.
  - split.
    + intros Hthrow. destruct (parseFile fs F) as [m|e'] eqn:HF; simpl in Hthrow.
      * destruct (parse_all fs files) as [rest|e'] eqn:Hrest;
          simpl in Hthrow; [done|]. injection Hthrow as ->.
        destruct (proj1 IH eq_refl) as (before & F0 & after & -> & Hb & He).
        exists (F :: before), F0, after. split_and!; [done| |done].
        intros F' [->|HF']%elem_of_cons; eauto.
      * injection Hthrow as ->. exists [], F, files.
        split_and!; [done| |done].
        intros F' HF'. by apply elem_of_nil in HF'.
    + intros ([|F' before] & F0 & after & Hf & Hb & He);
        injection Hf as -> ->.
      * by rewrite He.
      * destruct (Hb F') as [m Hm]; [by left|]. rewrite Hm. simpl.
        assert (parse_all fs (before ++ F0 :: after) = Throw e) as ->; [|done].
        apply IH. exists before, F0, after. split_and!; [done| |done].
        intros F'' HF''. apply Hb. by right.
Qed.

Lemma records_ids (fs : FileSystem) (files : list string)
    (records : list file_metadata) :
  Forall2 (fun F m => parseFile fs F = Ok m) files records ->
  id <$> records = fileId <$> files.
Proof.
  induction 1 as [|F m files records HF _ IH]; [done|].
  by rewrite !fmap_cons, IH, (parseFile_id _ _ _ HF).
Qed.

Lemma file_node_ids_assemble (records : list file_metadata) :
  file_node_ids (assemble records) = id <$> records.
Proof.
  unfold file_node_ids. rewrite assemble_nodes.
  induction records as [|m records IH]; simpl; [done|].
  rewrite omap_app, IH. f_equal.
  induction (stateVariables m) as [|v vars IHv]; simpl; [done|]. apply IHv.
Qed.

End Graphs.

(** ** The assembled graph, record by record *)

Section AssembledGraph.

Context `{Platform}.

Lemma main_Ok (fs : FileSystem) (files : list string) (g : graph) :
  main fs files = Ok g <->
  exists records,
    Forall2 (fun F m => parseFile fs F = Ok m) files records /\
    g = assemble records.
Proof.
  rewrite main_assemble. split.
  - destruct (parse_all fs files) as [records|e] eqn:Hall; simpl; [|done].
    intros [= <-]. exists records. split; [by apply parse_all_Ok|done].
  - intros (records & Hall%parse_all_Ok & ->). by rewrite Hall.
Qed.

Lemma record_of_file (fs : FileSystem) (files : list string)
    (records : list file_metadata) (F : string) :
  Forall2 (fun F m => parseFile fs F = Ok m) files records ->
  F ∈ files -> exists m, m ∈ records /\ parseFile fs F = Ok m.
Proof.
  intros Hall (i & Hi)%list_elem_of_lookup.
  destruct (Forall2_lookup_l _ _ _ _ _ Hall Hi) as (m & Hm & HF).
  exists m. split; [|done]. apply list_elem_of_lookup. eauto.
Qed.

Lemma file_of_record (fs : FileSystem) (files : list string)
    (records : list file_metadata) (m : file_metadata) :
  Forall2 (fun F m => parseFile fs F = Ok m) files records ->
  m ∈ records -> exists F, F ∈ files /\ parseFile fs F = Ok m.
Proof.
  intros Hall (i & Hi)%list_elem_of_lookup.
  destruct (Forall2_lookup_r _ _ _ _ _ Hall Hi) as (F & HF & Hm).
  exists F. split; [|done]. apply list_elem_of_lookup. eauto.
Qed.








Lemma elem_of_flat_map {A B : Type} (f : A -> list B) (l : list A) (y : B) :
  y ∈ flat_map f l <-> exists x, x ∈ l /\ y ∈ f x.
Proof.
  rewrite list_elem_of_In, in_flat_map.
  split; intros (x & Hx & Hy); exists x; by rewrite ?list_elem_of_In in *.
Qed.

(** Every edge of the assembled graph is a state edge of a record to one of
    its state nodes, or an import edge to the identity of a record. *)
Lemma assemble_edge_cases (records : list file_metadata) (e : edge) :
  e ∈ edges (assemble records) <->
  (exists m v, m ∈ records /\ v ∈ stateVariables m /\ e = state_edge_of m v) \/
  (exists m t, m ∈ records /\ t ∈ imports m /\ t ∈ id <$> records /\
    e = imports_edge_of m t).
Proof.
  rewrite assemble_edges, elem_of_app, !elem_of_flat_map.
  split.
  - intros [(m & Hm & He)|(m & Hm & He)].
    + apply list_elem_of_fmap in He as (v & -> & Hv). left. by exists m, v.
    + apply list_elem_of_fmap in He as (t & -> & Ht).
      apply list_elem_of_In, filter_In in Ht as [Ht Hk].
      apply bool_decide_eq_true in Hk. right. exists m, t.
      by apply list_elem_of_In in Ht.
  - intros [(m & v & Hm & Hv & ->)|(m & t & Hm & Ht & Hk & ->)].
    + left. exists m. split; [done|]. by apply list_elem_of_fmap_2.
    + right. exists m. split; [done|]. apply list_elem_of_fmap_2.
      apply list_elem_of_In, filter_In. rewrite <- list_elem_of_In.
      split; [done|]. by apply bool_decide_eq_true.
Qed.

Lemma assemble_node_cases (records : list file_metadata) (n : graph_node) :
  n ∈ nodes (assemble records) <->
  exists m, m ∈ records /\
    (n = FileNode m \/ exists v, v ∈ stateVariables m /\ n = state_node_of m v).
Proof.
  rewrite assemble_nodes, elem_of_flat_map.
  split; intros (m & Hm & Hn); exists m; (split; [done|]).
  - apply elem_of_cons in Hn as [->|Hn]; [by left|]. right.
    apply list_elem_of_fmap in Hn as (v & -> & Hv). by exists v.
  - destruct Hn as [->|(v & Hv & ->)]; [by left|]. right.
    by apply list_elem_of_fmap_2.
Qed.

End AssembledGraph.

(** ** Node identities as strings *)

Lemma string_app_cons (x : ascii) (a b : string) :
  String x a +:+ b = String x (a +:+ b).
Proof. reflexivity. Qed.

Lemma string_app_nil_l (b : string) : "" +:+ b = b.
Proof. reflexivity. Qed.

Lemma string_app_assoc (a b c : string) : (a +:+ b) +:+ c = a +:+ (b +:+ c).
Proof.
  induction a as [|x a IH]; [done|]. by rewrite !string_app_cons, IH.
Qed.

Lemma string_length_app (a b : string) :
  String.length (a +:+ b) = String.length a + String.length b.
Proof.
  induction a as [|x a IH]; [done|]. rewrite string_app_cons. simpl.
  by rewrite IH.
Qed.

Lemma string_app_inv_tail (a b t : string) : a +:+ t = b +:+ t -> a = b.
Proof.
  revert b. induction a as [|x a IH]; intros [|y b];
    rewrite ?string_app_cons, ?string_app_nil_l; intros Heq.
  - done.
  - apply (f_equal String.length) in Heq. simpl in Heq.
    rewrite string_length_app in Heq. lia.
  - apply (f_equal String.length) in Heq. simpl in Heq.
    rewrite string_length_app in Heq. lia.
  - injection Heq as -> Heq. f_equal. by apply IH.
Qed.

Lemma has_char_cons (c d : ascii) (r : string) :
  has_char c (String d r) = Ascii.eqb c d || has_char c r.
Proof. reflexivity. Qed.

Lemma after_last_cons (c d : ascii) (r : string) :
  after_last c (String d r) =
  if has_char c r then after_last c r
  else if Ascii.eqb c d then r else String d r.
Proof. reflexivity. Qed.

Lemma has_char_app (c : ascii) (a b : string) :
  has_char c (a +:+ b) = has_char c a || has_char c b.
Proof.
  induction a as [|x a IH]; [done|]. rewrite string_app_cons. simpl.
  by rewrite IH, orb_assoc.
Qed.

Lemma after_last_absent (c : ascii) (s : string) :
  has_char c s = false -> after_last c s = s.
Proof.
  destruct s as [|d r]; simpl; [done|].
  intros [-> ->]%orb_false_iff. done.
Qed.

Lemma after_last_app (c : ascii) (a v : string) :
  has_char c v = false -> after_last c (a +:+ String c v) = v.
Proof.
  intros Hv. induction a as [|x a IH].
  - rewrite string_app_nil_l. simpl. by rewrite Hv, Ascii.eqb_refl.
  - rewrite string_app_cons. simpl. rewrite has_char_app. simpl.
    by rewrite Ascii.eqb_refl, orb_true_r.
Qed.

Lemma state_node_id_split (F v : string) :
  state_node_id F v = (F +:+ "::state:") +:+ String ":" v.
Proof. unfold state_node_id. by rewrite string_app_assoc. Qed.

(** A state node identity determines its owner and its variable. *)
Lemma state_node_id_inj (F1 F2 v1 v2 : string) :
  has_char ":" v1 = false -> has_char ":" v2 = false ->
  state_node_id F1 v1 = state_node_id F2 v2 -> F1 = F2 /\ v1 = v2.
Proof.
  intros H1 H2 Heq.
  assert (Hv : v1 = v2).
  { apply (f_equal (after_last ":")) in Heq.
    by rewrite !state_node_id_split, !after_last_app in Heq. }
  subst v2. split; [|done].
  by apply (string_app_inv_tail _ _ ("::state::" +:+ v1)).
Qed.

Global Instance state_node_id_inj_r (F : string) :
  Inj (=) (=) (state_node_id F).
Proof.
  intros v1 v2 Heq. unfold state_node_id in Heq.
  by apply (inj (String.append F)), (inj (String.append "::state::")) in Heq.
Qed.

Lemma after_last_dot_state (F t : string) :
  has_char "." t = false -> has_char ":" t = true ->
  has_char ":" (after_last "." (F +:+ t)) = true.
Proof.
  intros Hdot Hcolon. induction F as [|d F IH].
  - by rewrite string_app_nil_l, after_last_absent.
  - rewrite string_app_cons, after_last_cons.
    destruct (has_char "." (F +:+ t)); [done|].
    destruct (Ascii.eqb "." d);
      by rewrite ?has_char_cons, has_char_app, Hcolon, ?orb_true_r.
Qed.

Lemma after_last_dot_extension (p : string) :
  has_source_extension p -> has_char ":" (after_last "." p) = false.
Proof.
  intros (stem & ext & Hext & ->). unfold fileExtensions in Hext.
  repeat (apply elem_of_cons in Hext as [->|Hext]);
    [..|by apply elem_of_nil in Hext];
    by rewrite (after_last_app "." stem).
Qed.

(** The identity of a state node is never the identity of a file. *)
Lemma state_node_id_not_file (p F v : string) :
  has_source_extension p -> has_char "." v = false ->
  p <> state_node_id F v.
Proof.
  intros Hp Hv ->. apply after_last_dot_extension in Hp.
  unfold state_node_id in Hp.
  rewrite after_last_dot_state in Hp; [done| |done].
  by rewrite has_char_app, Hv.
Qed.

(** ** Uniqueness of node identities *)

Section Identities.

Context `{Platform}.

Lemma record_node_ids (m : file_metadata) :
  graph_node_id <$> record_nodes m =
  id m :: (state_node_id (id m) <$> stateVariables m).
Proof.
  unfold record_nodes. rewrite fmap_cons. f_equal.
  by rewrite <- list_fmap_compose.
Qed.

Lemma assemble_node_ids (records : list file_metadata) :
  graph_node_id <$> nodes (assemble records) =
  flat_map (fun m => id m :: (state_node_id (id m) <$> stateVariables m))
    records.
Proof.
  rewrite assemble_nodes.
  induction records as [|m records IH]; [done|].
  cbn [flat_map]. by rewrite fmap_app, IH, record_node_ids.
Qed.

Lemma record_node_ids_NoDup (m : file_metadata) :
  has_source_extension (id m) ->
  (forall v, v ∈ stateVariables m -> identifier_like v) ->
  NoDup (id m :: (state_node_id (id m) <$> stateVariables m)) <->
  NoDup (stateVariables m).
Proof.
  intros Hext Hvars. rewrite NoDup_cons, (NoDup_fmap (state_node_id (id m))).
  split; [by intros [_ ?]|]. intros Hnd. split; [|done].
  intros (v & Heq & Hv)%list_elem_of_fmap.
  by apply (state_node_id_not_file _ (id m) v Hext (proj2 (Hvars v Hv))).
Qed.

(** The identities of all nodes are distinct exactly when the identities of
    the files are and no record holds the same state variable twice. *)
Lemma assemble_node_ids_NoDup (records : list file_metadata) :
  (forall m, m ∈ records -> has_source_extension (id m)) ->
  (forall m v, m ∈ records -> v ∈ stateVariables m -> identifier_like v) ->
  NoDup (graph_node_id <$> nodes (assemble records)) <->
  NoDup (id <$> records) /\
  forall m, m ∈ records -> NoDup (stateVariables m).
Proof.
  rewrite assemble_node_ids.
  induction records as [|m records IH]; intros Hext Hvars.
  - split; [|constructor]. intros _. split; [constructor|].
    intros m Hm. by apply elem_of_nil in Hm.
  - cbn [flat_map]. rewrite fmap_cons, NoDup_app.
    rewrite record_node_ids_NoDup; [|apply Hext; by left|];
      [|intros v Hv; apply (Hvars m); [by left|done]].
    rewrite IH; [|intros; apply Hext; by right|];
      [|intros m' v Hm' Hv; apply (Hvars m'); [by right|done]].
    rewrite NoDup_cons. split.
    + intros (Hhd & Hdisj & Hids & Htl). split_and!.
      * intros (m' & Heq & Hm')%list_elem_of_fmap.
        apply (Hdisj (id m)); [by left|].
        apply elem_of_flat_map. exists m'. split; [done|].
        rewrite Heq. by left.
      * done.
      * intros m' [->|Hm']%elem_of_cons; auto.
    + intros ((Hm & Hids) & Hall). split_and!.
      * apply Hall. by left.
      * intros x Hx (m' & Hm' & Hx')%elem_of_flat_map.
        assert (Hne : id m <> id m').
        { intros Heq. apply Hm. rewrite Heq. by apply list_elem_of_fmap_2. }
        apply elem_of_cons in Hx as [->|(v & -> & Hv)%list_elem_of_fmap];
          apply elem_of_cons in Hx'
            as [Hx'|(v' & Hx' & Hv')%list_elem_of_fmap].
        -- done.
        -- revert Hx'. apply state_node_id_not_file; [apply Hext; by left|].
           apply (Hvars m'); [by right|done].
        -- symmetry in Hx'. revert Hx'.
           apply state_node_id_not_file; [apply Hext; by right|].
           apply (Hvars m); [by left|done].
        -- apply state_node_id_inj in Hx' as [? _]; [done|..].
           ++ apply (Hvars m); [by left|done].
           ++ apply (Hvars m'); [by right|done].
      * done.
      * intros m' Hm'. apply Hall. by right.
Qed.

End Identities.

(** * The properties of the specification *)

Section Claims.

Context `{Platform}.

(** ** The resolver *)

Lemma first_existing_Some (fs : FileSystem) (ps : list string) (p : string) :
  first_existing fs ps = Some p <->
  exists i, ps !! i = Some p /\ existsSync fs p = true /\
    forall j q, j < i -> ps !! j = Some q -> existsSync fs q = false.
Proof.
  induction ps as [|q ps IH]; simpl.
  - split; [done|]. by intros (i & Hi & _).
  - destruct (existsSync fs q) eqn:Hq.
    + split.
      * intros [= <-]. exists 0. split_and!; [done..|]. intros; lia.
      * intros ([|i] & Hi & Hp & Hbefore); simpl in Hi; [congruence|].
        specialize (Hbefore 0 q). rewrite Hq in Hbefore.
        discriminate Hbefore; [lia|done].
    + rewrite IH. split.
      * intros (i & Hi & Hp & Hbefore). exists (S i). split_and!; [done..|].
        intros [|j] q' Hj Hq'; simpl in Hq'; [congruence|].
        apply (Hbefore j); [lia|done].
      * intros ([|i] & Hi & Hp & Hbefore); simpl in Hi; [congruence|].
        exists i. split_and!; [done..|].
        intros j q' Hj Hq'. apply (Hbefore (S j)); [lia|done].
Qed.

Lemma first_existing_None (fs : FileSystem) (ps : list string) :
  first_existing fs ps = None <->
  forall q, q ∈ ps -> existsSync fs q = false.
Proof.
  induction ps as [|q ps IH]; simpl.
  - split; [|done]. intros _ q Hq. by apply elem_of_nil in Hq.
  - destruct (existsSync fs q) eqn:Hq.
    + split; [done|]. intros Hall. rewrite Hall in Hq; [done|by left].
    + rewrite IH. split.
      * intros Hall q' [->|Hq']%elem_of_cons; auto.
      * intros Hall q' Hq'. apply Hall. by right.
Qed.

Lemma first_existing_ext (fs1 fs2 : FileSystem) (ps : list string) :
  (forall p, p ∈ ps -> existsSync fs1 p = existsSync fs2 p) ->
  first_existing fs1 ps = first_existing fs2 ps.
Proof.
  induction ps as [|q ps IH]; intros Hagree; simpl; [done|].
  rewrite <- (Hagree q) by (by left).
  rewrite IH; [done|]. intros p Hp. apply Hagree. by right.
Qed.

(** C5: the base directory is the importing file's directory when the
    specifier begins with a dot and the project root otherwise; the
    candidates are [<base>.js], [<base>.jsx], [<base>.ts], [<base>.tsx],
    [<base>/index.js], [<base>/index.jsx], [<base>/index.ts],
    [<base>/index.tsx] in this order; the result is the first candidate that
    exists, and it is [None] (unresolved, no exception) when none exists. *)
Theorem resolveImportPath_first_existing_candidate (fs : FileSystem)
    (fromFile importPath : string) :
  possibilities fromFile importPath = candidates fromFile importPath /\
  (forall p,
     resolveImportPath fs fromFile importPath = Some p <->
     exists i,
       candidates fromFile importPath !! i = Some p /\
       existsSync fs p = true /\
       forall j q, j < i -> candidates fromFile importPath !! j = Some q ->
                   existsSync fs q = false) /\
  (resolveImportPath fs fromFile importPath = None <->
   forall q, q ∈ candidates fromFile importPath -> existsSync fs q = false).
Proof.
  assert (Hps : possibilities fromFile importPath = candidates fromFile importPath)
    by reflexivity.
  unfold resolveImportPath. rewrite Hps. split_and!; [done| |].
  - intros p. apply first_existing_Some.
  - apply first_existing_None.
Qed.

(** C9: resolution is a function of the pair and of the filesystem state
    alone, and of that state it only uses which candidates exist: two
    filesystems that agree on the candidates give the same result. *)
Theorem resolveImportPath_deterministic (fs1 fs2 : FileSystem)
    (fromFile importPath : string) :
  (forall p, p ∈ possibilities fromFile importPath ->
             existsSync fs1 p = existsSync fs2 p) ->
  resolveImportPath fs1 fromFile importPath =
  resolveImportPath fs2 fromFile importPath.
Proof. apply first_existing_ext. Qed.

(** ** The classifier *)

(** C10: in the record of every classified file, [usesState] is true iff
    [useState] is among the hook names, [usesEffect] iff [useEffect] is, and
    [usesContext] iff [useContext] is. *)
Theorem flags_agree_with_hook_names (fs : FileSystem) (filePath : string)
    (m : file_metadata) :
  parseFile fs filePath = Ok m ->
  (usesState m = true <-> "useState" ∈ usesHooks m) /\
  (usesEffect m = true <-> "useEffect" ∈ usesHooks m) /\
  (usesContext m = true <-> "useContext" ∈ usesHooks m).
Proof.
  intros (code & ast & _ & _ & _ & ->)%parseFile_Ok. apply classify_flags_agree.
Qed.

(** C2, amended: a name is appended to [stateVariables] exactly for the
    variable bindings whose left-hand side is a positional destructuring
    pattern with one or more elements, the first an identifier, and whose
    right-hand side is a call to [useState]; the name is the first
    destructured identifier, and for such a binding [stateVariables] contains
    the name, the hook names contain [useState] and [usesState] is true. *)
Theorem state_variables_recorded (fs : FileSystem) (filePath code : string)
    (ast : file_ast) (m : file_metadata) :
  readFileSync fs filePath = Some code ->
  parser_parse code = Some ast ->
  parseFile fs filePath = Ok m ->
  stateVariables m = omap (state_binding_name 1) (visited ast) /\
  forall n x,
    n ∈ visited ast -> state_binding_name 1 n = Some x ->
    x ∈ stateVariables m /\ "useState" ∈ usesHooks m /\ usesState m = true.
Proof.
  intros Hcode Hast ->%(parseFile_classify _ _ _ _ _ Hcode Hast). split.
  - apply classify_stateVariables.
  - intros n x Hn Hx.
    destruct (classify_state_hook_recorded fs filePath code ast n Hn)
      as [Hs Hh]; [by eauto|].
    split_and!; [|done..].
    rewrite classify_stateVariables. apply list_elem_of_omap. eauto.
Qed.

(** C4, amended: a name is in [components] exactly when it names a function
    declaration, or a variable binding initialized to an arrow function
    expression, whose identifier starts with an uppercase letter; so
    [function Header(){}] is recorded and [function helper(){}] is not. *)
Theorem components_recorded (fs : FileSystem) (filePath code : string)
    (ast : file_ast) (m : file_metadata) :
  readFileSync fs filePath = Some code ->
  parser_parse code = Some ast ->
  parseFile fs filePath = Ok m ->
  components m = omap (component_name is_arrow_function) (visited ast) /\
  (forall x,
     x ∈ components m <->
     exists n, n ∈ visited ast /\
               component_name is_arrow_function n = Some x) /\
  (forall params body,
     component_name is_arrow_function
       (FunctionDeclaration (Some "Header") params body) = Some "Header" /\
     component_name is_arrow_function
       (FunctionDeclaration (Some "helper") params body) = None).
Proof.
  intros Hcode Hast ->%(parseFile_classify _ _ _ _ _ Hcode Hast). split_and!.
  - apply classify_components.
  - intros x. rewrite classify_components. apply list_elem_of_omap.
  - done.
Qed.

(** ** The pipeline *)

Lemma parse_all_total (fs : FileSystem) (files : list string) :
  (forall F, F ∈ files -> exists m, parseFile fs F = Ok m) ->
  exists records, parse_all fs files = Ok records.
Proof.
  induction files as [|F files IH]; intros Hall; simpl; [by exists []|].
  destruct (Hall F) as [m ->]; [by left|].
  destruct IH as [records ->]; [intros F' HF'; apply Hall; by right|].
  by exists (m :: records).
Qed.

(** A file for which [parseFile] throws makes [main] throw. *)
Lemma main_Throw_of_file (fs : FileSystem) (files : list string) (F : string)
    (e : exn) :
  F ∈ files -> parseFile fs F = Throw e -> exists e', main fs files = Throw e'.
Proof.
  intros HF He. rewrite main_assemble.
  destruct (parse_all fs files) as [records|e'] eqn:Hall; simpl; [|by eauto].
  apply parse_all_Ok in Hall.
  destruct (record_of_file fs files records F Hall HF) as (m & _ & Hm).
  congruence.
Qed.

(** C1, amended: a file read or parse failure is not isolated: it ends the
    run.  [main] throws the exception of the first file for which
    [parseFile] throws (the read fails, the text does not parse, or the
    traversal throws), and then there is no graph at all; only when
    [parseFile] returns a record for every file does [main] return a graph,
    in which every file appears with its record. *)
Theorem parse_failure_aborts_run (fs : FileSystem) (files : list string) :
  (forall F, F ∈ files ->
     readFileSync fs F = None \/
     (exists code, readFileSync fs F = Some code /\ parser_parse code = None) ->
     exists e, main fs files = Throw e) /\
  (forall e,
     main fs files = Throw e <->
     exists before F after,
       files = before ++ F :: after /\
       (forall F', F' ∈ before -> exists m, parseFile fs F' = Ok m) /\
       parseFile fs F = Throw e) /\
  ((forall F, F ∈ files -> exists m, parseFile fs F = Ok m) ->
   exists g,
     main fs files = Ok g /\
     forall F, F ∈ files ->
       exists m, parseFile fs F = Ok m /\ FileNode m ∈ nodes g).
Proof.
  split_and!.
  - intros F HF Hfail.
    assert (exists e, parseFile fs F = Throw e) as [e He].
    { destruct Hfail as [Hread|(code & Hcode & Hparse)].
      - exists (ReadError F). apply parseFile_Throw. by left.
      - exists (SyntaxError F). apply parseFile_Throw. right.
        exists code. split; [done|]. by left. }
    by apply (main_Throw_of_file fs files F e).
  - intros e. rewrite <- parse_all_Throw, main_assemble.
    destruct (parse_all fs files); simpl; split; congruence.
  - intros Hall. destruct (parse_all_total fs files Hall) as [records Hrec].
    exists (assemble records). split; [by rewrite main_assemble, Hrec|].
    intros F HF. apply parse_all_Ok in Hrec.
    destruct (record_of_file fs files records F Hrec HF) as (m & Hm & HFm).
    exists m. split; [done|]. apply assemble_node_cases. exists m. auto.
Qed.




(** C8, amended: in every graph [main] returns, the target of every
    [imports] edge and of every [state] edge is the identity of a node of the
    graph.  The identities of the file nodes are those of the files of the
    run, in order; the identities of all nodes (file nodes and state nodes)
    are pairwise distinct exactly when the files have pairwise distinct
    identities and no record holds the same state variable twice.  The
    identities of the files end in one of the extensions [glob] selects, and
    state variables are named by identifiers. *)
Theorem graph_node_identities (fs : FileSystem) (files : list string)
    (g : graph) :
  main fs files = Ok g ->
  (forall F, F ∈ files -> has_source_extension (fileId F)) ->
  (forall m v, FileNode m ∈ nodes g -> v ∈ stateVariables m ->
               identifier_like v) ->
  (forall e, e ∈ edges g -> target e ∈ graph_node_id <$> nodes g) /\
  file_node_ids g = fileId <$> files /\
  (NoDup (graph_node_id <$> nodes g) <->
   NoDup (fileId <$> files) /\
   forall m, FileNode m ∈ nodes g -> NoDup (stateVariables m)).
Proof.
  intros (records & Hall & ->)%main_Ok Hext Hvars.
  pose proof (records_ids fs files records Hall) as Hids.
  assert (Hfile : forall m, FileNode m ∈ nodes (assemble records) <->
                            m ∈ records).
  { intros m. rewrite assemble_node_cases. split.
    - intros (m' & Hm' & [[= ->]|(v & _ & [=])]). done.
    - intros Hm. exists m. auto. }
  split_and!.
  - intros e [(m & v & Hm & Hv & ->)|(m & t & Hm & _ & Ht & ->)]%assemble_edge_cases.
    + apply (list_elem_of_fmap_2' _ _ (state_node_of m v)); [|done].
      apply assemble_node_cases. exists m. split; [done|]. right. by exists v.
    + apply list_elem_of_fmap in Ht as (m' & -> & Hm').
      apply (list_elem_of_fmap_2' _ _ (FileNode m')); [|done].
      by apply Hfile.
  - by rewrite file_node_ids_assemble.
  - rewrite assemble_node_ids_NoDup, Hids.
    + split; intros [Hnd Hall']; (split; [done|]);
        intros m Hm; apply Hall'; by apply Hfile.
    + intros m Hm.
      destruct (file_of_record fs files records m Hall Hm) as (F & HF & HFm).
      rewrite (parseFile_id _ _ _ HFm). by apply Hext.
    + intros m v Hm Hv. apply (Hvars m); [by apply Hfile|done].
Qed.

End Claims.

(** * The properties on the scenarios *)

Section Scenarios.

Import Scenario.

(** C1, as stated, fails: [broken.js] does not parse, and although [a.ts]
    and [b.ts] do, [main] throws and returns no graph. *)
Lemma broken_file_aborts_run :
  parseFile (filesystem project_broken) (src "a.ts") = Ok a_record /\
  parseFile (filesystem project_broken) (src "b.ts") = Ok b_record /\
  parseFile (filesystem project_broken) (src "broken.js") =
    Throw (SyntaxError (src "broken.js")) /\
  main (filesystem project_broken) [src "a.ts"; src "broken.js"; src "b.ts"] =
    Throw (SyntaxError (src "broken.js")).
Proof. by vm_compute. Qed.

(** C2, as stated, fails: the left-hand side of
    [const [count] = useState(0)] has a single element, and [count] is
    recorded all the same. *)
Lemma single_element_binding_recorded :
  parser_parse "const [count] = useState(0);" =
    Some readonly_ast /\
  readonly_binding ∈ visited readonly_ast /\
  state_binding_name 2 readonly_binding = None /\
  exists m,
    parseFile (filesystem project_readonly) (src "Label.jsx") = Ok m /\
    stateVariables m = ["count"].
Proof.
  split_and!; [done| |done|].
  - apply elem_of_cons. right. apply elem_of_cons. by left.
  - eexists. by vm_compute.
Qed.

(** Scenario D: [const [count, setCount] = useState(0)]. *)
Lemma state_variables_recorded_counter :
  stateVariables counter_record =
    omap (state_binding_name 1) (visited counter_ast) /\
  forall n x,
    n ∈ visited counter_ast -> state_binding_name 1 n = Some x ->
    x ∈ stateVariables counter_record /\
    "useState" ∈ usesHooks counter_record /\
    usesState counter_record = true.
Proof.
  apply (state_variables_recorded (filesystem project_counter)
           (src "Counter.jsx") "const [count, setCount] = useState(0);"
           counter_ast counter_record); reflexivity.
Defined.

(** C3: the code records [useState] twice for the single hook call of
    [const [count, setCount] = useState(0)]: once in the [VariableDeclarator]
    visitor and once more, without a test, in the [CallExpression] visitor. *)
Theorem hook_names_duplicated :
  parseFile (filesystem project_counter) (src "Counter.jsx") =
    Ok counter_record /\
  usesHooks counter_record = ["useState"; "useState"] /\
  ~ NoDup (usesHooks counter_record).
Proof.
  split_and!; [by vm_compute|done|].
  intros [Hin _]%NoDup_cons. apply Hin. by left.
Qed.

(** C4, as stated, fails: [const Header = function () {}] binds a variable
    with an uppercase name to a function expression and [Header] is not
    recorded. *)
Lemma function_expression_component_not_recorded :
  parser_parse "const Header = function () {};" =
    Some function_expression_ast /\
  function_expression_binding ∈ visited function_expression_ast /\
  component_name is_function_expression function_expression_binding =
    Some "Header" /\
  exists m,
    parseFile (filesystem project_function_expression) (src "Header.jsx") =
      Ok m /\
    components m = [].
Proof.
  split_and!; [done| |done|].
  - apply elem_of_cons. right. apply elem_of_cons. by left.
  - eexists. by vm_compute.
Qed.

(** Scenario C: [function Header(){}] and [function helper(){}]. *)
Lemma components_recorded_header :
  components header_record =
    omap (component_name is_arrow_function) (visited header_ast) /\
  (forall x,
     x ∈ components header_record <->
     exists n, n ∈ visited header_ast /\
               component_name is_arrow_function n = Some x) /\
  (forall params body,
     component_name is_arrow_function
       (FunctionDeclaration (Some "Header") params body) = Some "Header" /\
     component_name is_arrow_function
       (FunctionDeclaration (Some "helper") params body) = None).
Proof.
  apply (components_recorded (filesystem project_header) (src "x.tsx")
           "function Header(){} function helper(){}" header_ast
           header_record); reflexivity.
Defined.

(** A file that is no candidate of [./b] does not change its resolution. *)
Lemma resolveImportPath_deterministic_a :
  resolveImportPath (filesystem project_a) (src "a.ts") "./b" =
  resolveImportPath (filesystem project_a_extended) (src "a.ts") "./b".
Proof.
  apply resolveImportPath_deterministic.
  intros p Hp. vm_compute in Hp.
  repeat (apply elem_of_cons in Hp as [->|Hp]); try reflexivity.
  by apply elem_of_nil in Hp.
Defined.

(** The flags of the record of Scenario D. *)
Lemma flags_agree_counter :
  (usesState counter_record = true <-> "useState" ∈ usesHooks counter_record) /\
  (usesEffect counter_record = true <-> "useEffect" ∈ usesHooks counter_record) /\
  (usesContext counter_record = true <->
   "useContext" ∈ usesHooks counter_record).
Proof.
  apply (flags_agree_with_hook_names (filesystem project_counter)
           (src "Counter.jsx")).
  vm_compute. reflexivity.
Defined.



(** C8, as stated, fails: [Menu.jsx] declares the state variable [open] in
    two components, and the graph has two state nodes with the identity
    [Menu.jsx::state::open]. *)
Lemma state_node_identity_repeated :
  main (filesystem project_menu) [src "Menu.jsx"] = Ok graph_menu /\
  graph_node_id <$> nodes graph_menu =
    ["Menu.jsx"; "Menu.jsx::state::open"; "Menu.jsx::state::open"] /\
  ~ NoDup (graph_node_id <$> nodes graph_menu).
Proof.
  split_and!; [by vm_compute|done|].
  intros [_ [Hin _]%NoDup_cons]%NoDup_cons. apply Hin. by left.
Qed.

(** The graph of Scenario D: its two node identities are distinct. *)
Lemma graph_node_identities_counter :
  (forall e, e ∈ edges graph_counter ->
             target e ∈ graph_node_id <$> nodes graph_counter) /\
  file_node_ids graph_counter = fileId <$> [src "Counter.jsx"] /\
  (NoDup (graph_node_id <$> nodes graph_counter) <->
   NoDup (fileId <$> [src "Counter.jsx"]) /\
   forall m, FileNode m ∈ nodes graph_counter -> NoDup (stateVariables m)).
Proof.
  apply (graph_node_identities (filesystem project_counter)
           [src "Counter.jsx"] graph_counter).
  - vm_compute. reflexivity.
  - intros F HF. apply list_elem_of_singleton in HF as ->.
    exists "Counter", ".jsx". split; [|reflexivity].
    apply elem_of_cons. right. apply elem_of_cons. by left.
  - intros m v Hm Hv. simpl in Hm.
    apply elem_of_cons in Hm as [[= ->]|Hm].
    + apply list_elem_of_singleton in Hv as ->. by vm_compute.
    + apply list_elem_of_singleton in Hm. discriminate Hm.
Defined.

End Scenarios.

(** * Further properties of the classifier and of the assembly *)

(** ** More on folds and on visited nodes *)

Lemma fold_left_invariant_in {A S : Type} (step : A -> S -> S)
    (P : S -> Prop) (xs : list A) :
  (forall x s, x ∈ xs -> P s -> P (step x s)) ->
  forall s, P s -> P (fold_left (fun s x => step x s) xs s).
Proof.
  induction xs as [|x xs IH]; intros Hstep s Hs; simpl; [done|].
  apply IH.
  - intros y s' Hy. apply Hstep. by right.
  - apply Hstep; [by left|done].
Qed.

(** An invariant that relates the state to the nodes visited so far. *)
Lemma fold_left_prefix {A S : Type} (step : A -> S -> S)
    (P : list A -> S -> Prop) :
  (forall pre x s, P pre s -> P (pre ++ [x]) (step x s)) ->
  forall xs s, P [] s -> P xs (fold_left (fun s x => step x s) xs s).
Proof.
  intros Hstep xs s Hs.
  assert (Hgen : forall pre s', P pre s' ->
            P (pre ++ xs) (fold_left (fun s x => step x s) xs s')).
  { induction xs as [|x xs IH]; intros pre s' Hpre; simpl.
    - by rewrite app_nil_r.
    - rewrite (cons_middle x pre xs), app_assoc. apply IH. by apply Hstep. }
  by apply (Hgen []).
Qed.

Lemma fold_left_orb {A S : Type} (f : S -> bool) (step : A -> S -> S)
    (g : A -> bool) :
  (forall x s, f (step x s) = f s || g x) ->
  forall xs s, f (fold_left (fun s x => step x s) xs s) = f s || existsb g xs.
Proof.
  intros Hstep xs. induction xs as [|x xs IH]; intros s; simpl.
  - by rewrite orb_false_r.
  - by rewrite IH, Hstep, orb_assoc.
Qed.

Lemma preorder_self (n : node) : n ∈ preorder n.
Proof. rewrite preorder_children. by left. Qed.

(** The children of a visited node are visited. *)
Lemma preorder_children_closed (r n c : node) :
  n ∈ preorder r -> c ∈ children n -> c ∈ preorder r.
Proof.
  revert n c. induction r as [r IH] using node_children_ind.
  intros n c Hn Hc. rewrite (preorder_children r) in Hn.
  rewrite (preorder_children r). rewrite Forall_forall in IH.
  apply elem_of_cons. right. apply elem_of_flat_map.
  apply elem_of_cons in Hn as [->|Hn].
  - exists c. split; [done|]. apply preorder_self.
  - apply elem_of_flat_map in Hn as (c' & Hc' & Hn).
    exists c'. split; [done|]. by apply (IH c' Hc' n c).
Qed.

Lemma visited_children_closed (ast : file_ast) (n c : node) :
  n ∈ visited ast -> c ∈ children n -> c ∈ visited ast.
Proof.
  unfold visited. intros (r & Hr & Hn)%elem_of_flat_map Hc.
  apply elem_of_flat_map. exists r. split; [done|].
  by apply (preorder_children_closed r n c).
Qed.

Section MoreClassifier.

Context `{Platform} (fs : FileSystem) (filePath : string).

Ltac untouched :=
  unfold visit_ImportDeclaration, visit_FunctionDeclaration,
    visit_VariableDeclarator_component, visit_CallExpression;
  repeat case_match; done.

(** ** Route declarations *)

Lemma enter_declaresRoutes (n : node) (m : file_metadata) :
  declaresRoutes (enter fs filePath n m) = declaresRoutes m || is_route_import n.
Proof.
  destruct n as [| | importPath specifiers | | | | i init | |];
    try (rewrite orb_false_r; unfold enter; untouched).
  - unfold enter, visit_ImportDeclaration, is_route_import.
    destruct (resolveImportPath _ _ _) as [p|]; simpl;
      repeat (case_match; simpl); by rewrite ?orb_true_r, ?orb_false_r.
  - rewrite enter_VariableDeclarator, visit_state_spec, orb_false_r.
    assert (Hc : declaresRoutes (visit_VariableDeclarator_component
              (VariableDeclarator i init) m) = declaresRoutes m) by untouched.
    revert Hc. generalize (visit_VariableDeclarator_component
                             (VariableDeclarator i init) m); intros m' Hc.
    repeat (case_match; simpl); by rewrite ?Hc.
Qed.

Lemma classify_declaresRoutes (code : string) (ast : file_ast) :
  declaresRoutes (classify fs filePath code ast) =
  existsb is_route_import (visited ast).
Proof.
  rewrite classify_fold.
  by rewrite (fold_left_orb declaresRoutes (enter fs filePath)
                is_route_import enter_declaresRoutes).
Qed.

(** ** Where hook names come from *)

(** The right-hand side of a recognized state binding is a hook call. *)
Lemma state_binding_call (n : node) (x : string) :
  state_binding_name 1 n = Some x ->
  exists c, c ∈ children n /\ hook_call_name c = Some "useState".
Proof.
  destruct n as [| | | | | | i init | |]; try done.
  destruct i as [| elements | | | | | | |]; try done.
  destruct init as [rhs|]; try done. simpl.
  destruct (is_useState_call rhs) eqn:Hrhs; [|by rewrite andb_false_r].
  intros _. exists rhs. split; [apply elem_of_cons; right; by left|].
  destruct rhs as [| | | | | | | [name| | | | | | | |] args |]; try done.
  simpl in Hrhs. by apply String.eqb_eq in Hrhs as ->.
Qed.

Lemma useState_is_hook_call (c : node) (args : list node) :
  node_name c = Some "useState" ->
  hook_call_name (CallExpression c args) = Some "useState".
Proof. destruct c; try done. by intros [= ->]. Qed.

(** A visit adds no name but the name of the hook call it visits, or
    [useState] for a recognized state binding. *)
Lemma enter_hooks_added (n : node) (m : file_metadata) (x : string) :
  x ∈ usesHooks (enter fs filePath n m) ->
  x ∈ usesHooks m \/ hook_call_name n = Some x \/
  (x = "useState" /\ is_Some (state_binding_name 1 n)).
Proof.
  destruct n as [| | importPath specifiers | fid params body | | | i init
                 | c args |]; try (by left).
  - unfold enter, visit_ImportDeclaration.
    repeat (case_match; simpl); by left.
  - unfold enter. rewrite visit_FunctionDeclaration_spec.
    repeat (case_match; simpl); by left.
  - rewrite enter_VariableDeclarator, visit_state_spec, visit_component_spec.
    cbv beta iota.
    set (m' := match component_name is_arrow_function _ with
               | Some name => push_components name m | None => m end).
    assert (Hm' : usesHooks m' = usesHooks m) by (subst m'; by case_match).
    destruct (state_binding_name 1 _) as [v|]; simpl.
    + case_match; simpl; rewrite ?elem_of_app, ?list_elem_of_singleton, Hm'.
      * by left.
      * intros [?| ->]; [by left|]. right. right. eauto.
    + rewrite Hm'. by left.
  - unfold enter, visit_CallExpression. cbv zeta.
    destruct (node_name c) as [callee|] eqn:Hc.
    + set (m1 := if bool_decide (Some callee = Some "useState") then _ else m).
      set (m2 := if bool_decide (Some callee = Some "useEffect") then _ else m1).
      set (m3 := if bool_decide (Some callee = Some "useContext")
                 then _ else m2).
      assert (Hname : forall y, Some callee = Some y -> startsWith y "use" = true ->
                hook_call_name (CallExpression c args) = Some y).
      { intros y [= <-] Hy. destruct c; try done. simpl in Hc.
        injection Hc as ->. simpl. by rewrite Hy. }
      assert (H1 : x ∈ usesHooks m1 ->
                   x ∈ usesHooks m \/
                   hook_call_name (CallExpression c args) = Some x).
      { subst m1. case_bool_decide as Hd; [|by left]. simpl.
        rewrite elem_of_app, list_elem_of_singleton.
        intros [?| ->]; [by left|]. right. by apply Hname. }
      assert (H2 : x ∈ usesHooks m2 ->
                   x ∈ usesHooks m \/
                   hook_call_name (CallExpression c args) = Some x).
      { subst m2. case_bool_decide as Hd; [|done]. simpl.
        rewrite elem_of_app, list_elem_of_singleton.
        intros [?| ->]; [auto|]. right. by apply Hname. }
      assert (H3 : x ∈ usesHooks m3 ->
                   x ∈ usesHooks m \/
                   hook_call_name (CallExpression c args) = Some x).
      { subst m3. case_bool_decide as Hd; [|done].
        case_match; simpl; [|done].
        rewrite elem_of_app, list_elem_of_singleton.
        intros [?| ->]; [auto|]. right. by apply Hname. }
      destruct (truthy callee && startsWith callee "use"
                && negb (includes (usesHooks m3) callee)) eqn:Hpush.
      * simpl. rewrite elem_of_app, list_elem_of_singleton.
        intros [Hx| ->]; [destruct (H3 Hx); auto|].
        right. left. apply Hname; [done|].
        by apply andb_prop in Hpush as [[_ ?]%andb_prop _].
      * intros Hx. destruct (H3 Hx); auto.
    + repeat (case_bool_decide; try done). by left.
Qed.

(** ** How often a hook name is recorded *)

Lemma occurrences_app (x y : string) (l : list string) :
  occurrences x (l ++ [y]) =
  occurrences x l + (if String.eqb x y then 1 else 0).
Proof.
  unfold occurrences. rewrite List.filter_app, length_app. simpl.
  by destruct (String.eqb x y).
Qed.

Lemma occurrences_included (x : string) (l : list string) :
  x ∈ l <-> 0 < occurrences x l.
Proof.
  unfold occurrences. induction l as [|y l IH]; simpl.
  - rewrite elem_of_nil. lia.
  - rewrite elem_of_cons, IH.
    destruct (String.eqb x y) eqn:Hxy; simpl.
    + apply String.eqb_eq in Hxy. split; [lia|auto].
    + apply String.eqb_neq in Hxy. split; [by intros [?|?]|auto].
Qed.

Lemma includes_pushed (x : string) (l : list string) :
  includes (l ++ [x]) x = true.
Proof.
  apply bool_decide_eq_true, elem_of_app. right. by apply list_elem_of_singleton.
Qed.

(** Each call to [useState] or to [useEffect] adds its name once, whatever
    was recorded before; no other call adds it. *)
Lemma visit_CallExpression_occurrences (x : string) (n : node)
    (m : file_metadata) :
  x = "useState" \/ x = "useEffect" ->
  occurrences x (usesHooks (visit_CallExpression n m)) =
  occurrences x (usesHooks m) + (if is_call_to x n then 1 else 0).
Proof.
  intros Hx.
  destruct n as [| | | | | | | c args |]; try (simpl; lia).
  destruct c as [callee| | | | | | | |];
    try (unfold visit_CallExpression; simpl; lia).
  unfold visit_CallExpression, is_call_to. cbv beta iota zeta delta [node_name].
  destruct (String.eqb callee x) eqn:Hcx.
  - apply String.eqb_eq in Hcx as ->.
    destruct Hx as [-> | ->].
    + rewrite (bool_decide_true (Some "useState" = Some "useState")) by done.
      rewrite (bool_decide_false (Some "useState" = Some "useEffect")) by done.
      rewrite (bool_decide_false (Some "useState" = Some "useContext")) by done.
      simpl usesHooks. rewrite includes_pushed. simpl.
      by rewrite occurrences_app.
    + rewrite (bool_decide_false (Some "useEffect" = Some "useState")) by done.
      rewrite (bool_decide_true (Some "useEffect" = Some "useEffect")) by done.
      rewrite (bool_decide_false (Some "useEffect" = Some "useContext")) by done.
      simpl usesHooks. rewrite includes_pushed. simpl.
      by rewrite occurrences_app.
  - apply String.eqb_neq in Hcx.
    assert (Hpush : forall y l, (y = callee \/ y <> x) ->
              occurrences x (l ++ [y]) = occurrences x l).
    { intros y l Hy. rewrite occurrences_app.
      destruct (String.eqb x y) eqn:Hxy; [|lia].
      apply String.eqb_eq in Hxy. destruct Hy; congruence. }
    set (m1 := if bool_decide (Some callee = Some "useState") then _ else m).
    set (m2 := if bool_decide (Some callee = Some "useEffect") then _ else m1).
    set (m3 := if bool_decide (Some callee = Some "useContext") then _ else m2).
    assert (H1 : occurrences x (usesHooks m1) = occurrences x (usesHooks m)).
    { subst m1. case_bool_decide as Hd; [|done]. simpl.
      apply Hpush. left. congruence. }
    assert (H2 : occurrences x (usesHooks m2) = occurrences x (usesHooks m)).
    { subst m2. case_bool_decide as Hd; [|done]. simpl.
      rewrite Hpush; [done|]. left. congruence. }
    assert (H3 : occurrences x (usesHooks m3) = occurrences x (usesHooks m)).
    { subst m3. case_bool_decide as Hd; [|done].
      case_match; simpl; [|done].
      rewrite Hpush; [done|]. left. congruence. }
    case_match; simpl; rewrite ?Hpush, H3; auto with lia.
Qed.

(** A visit adds [useEffect] exactly when it visits a call to it. *)
Lemma enter_useEffect_occurrences (n : node) (m : file_metadata) :
  occurrences "useEffect" (usesHooks (enter fs filePath n m)) =
  occurrences "useEffect" (usesHooks m)
  + (if is_call_to "useEffect" n then 1 else 0).
Proof.
  destruct n as [| | importPath specifiers | fid params body | | | i init
                 | c args |]; try (simpl; lia).
  - unfold enter, visit_ImportDeclaration.
    repeat (case_match; simpl); lia.
  - unfold enter. rewrite visit_FunctionDeclaration_spec.
    repeat (case_match; simpl); lia.
  - rewrite enter_VariableDeclarator, visit_state_spec, visit_component_spec.
    cbv beta iota.
    set (m' := match component_name is_arrow_function _ with
               | Some name => push_components name m | None => m end).
    assert (Hm' : usesHooks m' = usesHooks m) by (subst m'; by case_match).
    destruct (state_binding_name 1 _) as [v|]; simpl; [|rewrite Hm'; lia].
    case_match; simpl; rewrite ?occurrences_app, Hm'; simpl; lia.
  - by apply visit_CallExpression_occurrences; right.
Qed.

(** A visit adds [useState] when it visits a call to it, and once more for
    a recognized state binding met before any [useState] was recorded. *)
Lemma enter_useState_occurrences (n : node) (m : file_metadata) :
  occurrences "useState" (usesHooks (enter fs filePath n m)) =
    occurrences "useState" (usesHooks m)
    + (if is_call_to "useState" n then 1 else 0) \/
  (occurrences "useState" (usesHooks m) = 0 /\
   is_call_to "useState" n = false /\
   is_Some (state_binding_name 1 n) /\
   occurrences "useState" (usesHooks (enter fs filePath n m)) = 1).
Proof.
  destruct n as [| | importPath specifiers | fid params body | | | i init
                 | c args |]; try (left; simpl; lia).
  - left. unfold enter, visit_ImportDeclaration.
    repeat (case_match; simpl); lia.
  - left. unfold enter. rewrite visit_FunctionDeclaration_spec.
    repeat (case_match; simpl); lia.
  - rewrite enter_VariableDeclarator, visit_state_spec, visit_component_spec.
    cbv beta iota.
    set (m' := match component_name is_arrow_function _ with
               | Some name => push_components name m | None => m end).
    assert (Hm' : usesHooks m' = usesHooks m) by (subst m'; by case_match).
    destruct (state_binding_name 1 _) as [v|];
      [|left; simpl; rewrite Hm'; lia].
    simpl. unfold includes. case_bool_decide as Hin; simpl.
    + left. rewrite Hm'. lia.
    + right. rewrite Hm' in Hin.
      assert (occurrences "useState" (usesHooks m) = 0) as Hzero.
      { destruct (occurrences_included "useState" (usesHooks m)) as [_ Hocc].
        destruct (occurrences "useState" (usesHooks m)); [done|].
        exfalso. apply Hin, Hocc. lia. }
      split_and!; [done|done|by eauto|].
      by rewrite occurrences_app, Hm', Hzero.
  - left. by apply visit_CallExpression_occurrences; left.
Qed.

(** ** Names that are tested before they are pushed *)

Lemma tested_push (x : string) (l : list string) :
  NoDup (filter tested_hook_name l) ->
  (tested_hook_name x -> x ∉ l) ->
  NoDup (filter tested_hook_name (l ++ [x])).
Proof.
  intros Hl Hx. rewrite filter_app. apply NoDup_app. split_and!; [done| |].
  - intros y [_ Hy]%list_elem_of_filter Hyx.
    destruct (decide (tested_hook_name x)) as [Ht|Ht].
    + rewrite filter_cons_True in Hyx by done.
      apply list_elem_of_singleton in Hyx as ->. by apply Hx.
    + rewrite filter_cons_False in Hyx by done. by apply elem_of_nil in Hyx.
  - destruct (decide (tested_hook_name x)) as [Ht|Ht].
    + rewrite filter_cons_True by done. apply NoDup_singleton.
    + rewrite filter_cons_False by done. apply NoDup_nil_2.
Qed.

Lemma enter_tested_NoDup (n : node) (m : file_metadata) :
  NoDup (filter tested_hook_name (usesHooks m)) ->
  NoDup (filter tested_hook_name (usesHooks (enter fs filePath n m))).
Proof.
  intros Hm.
  destruct n as [| | importPath specifiers | fid params body | | | i init
                 | c args |]; try done.
  - unfold enter, visit_ImportDeclaration. by repeat (case_match; simpl).
  - unfold enter. rewrite visit_FunctionDeclaration_spec.
    by repeat (case_match; simpl).
  - rewrite enter_VariableDeclarator, visit_state_spec, visit_component_spec.
    cbv beta iota.
    set (m' := match component_name is_arrow_function _ with
               | Some name => push_components name m | None => m end).
    assert (Hm' : usesHooks m' = usesHooks m) by (subst m'; by case_match).
    destruct (state_binding_name 1 _) as [v|]; simpl; [|by rewrite Hm'].
    case_match; simpl; rewrite Hm'; [done|].
    apply tested_push; [done|]. by intros [? _].
  - unfold enter, visit_CallExpression. cbv zeta.
    set (callee := node_name c).
    set (m1 := if bool_decide (callee = Some "useState") then _ else m).
    set (m2 := if bool_decide (callee = Some "useEffect") then _ else m1).
    set (m3 := if bool_decide (callee = Some "useContext") then _ else m2).
    assert (H1 : NoDup (filter tested_hook_name (usesHooks m1))).
    { subst m1. case_bool_decide; [|done]. simpl.
      apply tested_push; [done|]. by intros [? _]. }
    assert (H2 : NoDup (filter tested_hook_name (usesHooks m2))).
    { subst m2. case_bool_decide; [|done]. simpl.
      apply tested_push; [done|]. by intros [_ ?]. }
    assert (H3 : NoDup (filter tested_hook_name (usesHooks m3))).
    { subst m3. case_bool_decide; [|done].
      destruct (negb _) eqn:Hneg; simpl; [|done].
      apply tested_push; [done|]. intros _.
      apply negb_true_iff in Hneg. by apply bool_decide_eq_false in Hneg. }
    destruct callee as [name|]; [|done].
    destruct (truthy name && startsWith name "use"
              && negb (includes (usesHooks m3) name)) eqn:Hpush; [|done].
    simpl. apply tested_push; [done|]. intros _.
    apply andb_prop in Hpush as [_ Hneg].
    apply negb_true_iff in Hneg. by apply bool_decide_eq_false in Hneg.
Qed.

(** ** The fields no visitor writes *)

Lemma enter_header (n : node) (m : file_metadata) :
  id (enter fs filePath n m) = id m /\
  linesOfCode (enter fs filePath n m) = linesOfCode m /\
  fileType (enter fs filePath n m) = fileType m.
Proof.
  destruct n as [| | | | | | i init | |]; try (unfold enter; untouched).
  rewrite enter_VariableDeclarator, visit_state_spec.
  assert (Hc : id (visit_VariableDeclarator_component
            (VariableDeclarator i init) m) = id m /\
          linesOfCode (visit_VariableDeclarator_component
            (VariableDeclarator i init) m) = linesOfCode m /\
          fileType (visit_VariableDeclarator_component
            (VariableDeclarator i init) m) = fileType m) by untouched.
  revert Hc. generalize (visit_VariableDeclarator_component
                           (VariableDeclarator i init) m); intros m' Hc.
  by repeat (case_match; simpl).
Qed.

End MoreClassifier.

(** ** Counting lemmas *)

Lemma calls_to_app (name : string) (pre : list node) (n : node) :
  calls_to name (pre ++ [n]) =
  calls_to name pre + (if is_call_to name n then 1 else 0).
Proof.
  unfold calls_to. rewrite List.filter_app, length_app. simpl.
  by destruct (is_call_to name n).
Qed.

Lemma NoDup_occurrences (x : string) (l : list string) :
  NoDup l -> occurrences x l <= 1.
Proof.
  induction 1 as [|y l Hy Hl IH]; [by unfold occurrences; simpl; lia|].
  unfold occurrences in *. simpl.
  destruct (String.eqb x y) eqn:Hxy; [|done].
  apply String.eqb_eq in Hxy as ->. simpl.
  destruct (occurrences_included y l) as [_ Hocc]. unfold occurrences in Hocc.
  destruct (length (List.filter (String.eqb y) l)); [lia|].
  exfalso. apply Hy, Hocc. lia.
Qed.

Lemma occurrences_filter_tested (x : string) (l : list string) :
  tested_hook_name x ->
  occurrences x (filter tested_hook_name l) = occurrences x l.
Proof.
  intros Hx. unfold occurrences.
  induction l as [|y l IH]; [done|].
  destruct (decide (tested_hook_name y)) as [Hy|Hy].
  - rewrite filter_cons_True by done. simpl.
    destruct (String.eqb x y); simpl; by rewrite IH.
  - rewrite filter_cons_False by done. simpl.
    destruct (String.eqb x y) eqn:Hxy; [|done].
    apply String.eqb_eq in Hxy as ->. done.
Qed.

Lemma split_newline_length_pos (code : string) : 1 <= split_newline_length code.
Proof.
  induction code as [|c r IH]; simpl; [done|]. destruct (Ascii.eqb c newline); lia.
Qed.

Lemma is_route_import_spec (n : node) :
  is_route_import n = true <->
  exists specifiers imported local,
    n = ImportDeclaration "react-router-dom" specifiers /\
    ImportSpecifier (Some imported) local ∈ specifiers /\
    (imported = "Route" \/ imported = "Routes").
Proof.
  split.
  - destruct n as [| | importPath specifiers | | | | | |]; try done. simpl.
    intros [->%String.eqb_eq Hex]%andb_prop.
    apply existsb_exists in Hex as ([[imported|] local| |] & Hin & Hs);
      try done.
    exists specifiers, imported, local.
    split_and!; [done|by apply list_elem_of_In|].
    simpl in Hs. apply orb_prop in Hs as [Hs|Hs];
      apply bool_decide_eq_true in Hs; injection Hs as ->; auto.
  - intros (specifiers & imported & local & -> & Hin & Him). simpl.
    apply existsb_exists. exists (ImportSpecifier (Some imported) local).
    split; [by apply list_elem_of_In|]. by destruct Him as [-> | ->].
Qed.

(** * Further properties: the theorems *)

Section MoreProperties.

Context `{Platform}.

(** X1: [declaresRoutes] is true exactly when the file holds an import
    declaration from [react-router-dom] with an [ImportSpecifier] whose
    imported name is [Route] or [Routes]; whether the import resolves to a
    file plays no part. *)
Theorem routes_declared (fs : FileSystem) (filePath code : string)
    (ast : file_ast) (m : file_metadata) :
  readFileSync fs filePath = Some code ->
  parser_parse code = Some ast ->
  parseFile fs filePath = Ok m ->
  declaresRoutes m = true <->
  exists specifiers imported local,
    ImportDeclaration "react-router-dom" specifiers ∈ visited ast /\
    ImportSpecifier (Some imported) local ∈ specifiers /\
    (imported = "Route" \/ imported = "Routes").
Proof.
  intros Hcode Hast ->%(parseFile_classify _ _ _ _ _ Hcode Hast).
  rewrite classify_declaresRoutes, existsb_exists. split.
  - intros (n & Hn & (specifiers & imported & local & -> & Hs & Hi)
                     %is_route_import_spec).
    exists specifiers, imported, local. by rewrite list_elem_of_In.
  - intros (specifiers & imported & local & Hn & Hs & Hi).
    exists (ImportDeclaration "react-router-dom" specifiers).
    split; [by apply list_elem_of_In|].
    apply is_route_import_spec. by exists specifiers, imported, local.
Qed.

(** The hook names of a file are the names of its hook calls. *)
Lemma classify_hook_names (fs : FileSystem) (filePath code : string)
    (ast : file_ast) (x : string) :
  x ∈ usesHooks (classify fs filePath code ast) <->
  exists n, n ∈ visited ast /\ hook_call_name n = Some x.
Proof.
  split.
  - rewrite classify_fold.
    apply (fold_left_invariant_in (enter fs filePath)
             (fun m => x ∈ usesHooks m ->
                exists n, n ∈ visited ast /\ hook_call_name n = Some x)).
    + intros n m Hn IH Hx.
      apply enter_hooks_added in Hx as [Hx|[Hx|[-> [v Hv]]]]; [auto|eauto|].
      destruct (state_binding_call n v Hv) as (c & Hc & Hcall).
      exists c. split; [|done]. by apply (visited_children_closed ast n).
    + simpl. by intros ?%elem_of_nil.
  - intros (n & Hn & Hx). by apply (classify_hook_calls_recorded _ _ _ _ n).
Qed.

Lemma hook_call_name_is_call_to (name : string) (n : node) :
  startsWith name "use" = true ->
  hook_call_name n = Some name <-> is_call_to name n = true.
Proof.
  intros Huse.
  destruct n as [| | | | | | | [callee| | | | | | | |] args |]; try done.
  simpl. split.
  - destruct (startsWith callee "use"); [|done].
    intros [= ->]. apply String.eqb_refl.
  - intros ->%String.eqb_eq. by rewrite Huse.
Qed.

(** X2: the names in [usesHooks] are exactly the names of the calls whose
    callee is a plain identifier starting with [use]: every such call leaves
    its name, and no name comes from anything else (a call through a member
    expression such as [React.useState(0)] leaves none). *)
Theorem hook_names_are_hook_calls (fs : FileSystem) (filePath code : string)
    (ast : file_ast) (m : file_metadata) (x : string) :
  readFileSync fs filePath = Some code ->
  parser_parse code = Some ast ->
  parseFile fs filePath = Ok m ->
  x ∈ usesHooks m <->
  exists n, n ∈ visited ast /\ hook_call_name n = Some x.
Proof.
  intros Hcode Hast ->%(parseFile_classify _ _ _ _ _ Hcode Hast).
  apply classify_hook_names.
Qed.

(** X12: each flag tells whether the file calls the hook by its plain name:
    [usesState] is true exactly when some call has the identifier
    [useState] as its callee, and likewise [usesEffect] for [useEffect] and
    [usesContext] for [useContext]. *)
Theorem flags_tell_calls (fs : FileSystem) (filePath code : string)
    (ast : file_ast) (m : file_metadata) :
  readFileSync fs filePath = Some code ->
  parser_parse code = Some ast ->
  parseFile fs filePath = Ok m ->
  (usesState m = true <->
   exists n, n ∈ visited ast /\ is_call_to "useState" n = true) /\
  (usesEffect m = true <->
   exists n, n ∈ visited ast /\ is_call_to "useEffect" n = true) /\
  (usesContext m = true <->
   exists n, n ∈ visited ast /\ is_call_to "useContext" n = true).
Proof.
  intros Hcode Hast ->%(parseFile_classify _ _ _ _ _ Hcode Hast).
  destruct (classify_flags_agree fs filePath code ast) as (Hs & He & Hc).
  rewrite Hs, He, Hc, !classify_hook_names.
  split_and!; split; intros (n & Hn & Hcall); exists n; (split; [done|]);
    by apply hook_call_name_is_call_to in Hcall.
Qed.

(** X3: a hook name other than [useState] and [useEffect] is recorded at most
    once, however often the hook is called. *)
Theorem tested_hook_names_once (fs : FileSystem) (filePath code : string)
    (ast : file_ast) (m : file_metadata) (x : string) :
  readFileSync fs filePath = Some code ->
  parser_parse code = Some ast ->
  parseFile fs filePath = Ok m ->
  x <> "useState" -> x <> "useEffect" ->
  occurrences x (usesHooks m) <= 1.
Proof.
  intros Hcode Hast ->%(parseFile_classify _ _ _ _ _ Hcode Hast).
  intros Hs He.
  rewrite <- (occurrences_filter_tested x) by done.
  apply NoDup_occurrences. rewrite classify_fold.
  apply (fold_left_invariant (enter fs filePath)
           (fun m => NoDup (filter tested_hook_name (usesHooks m)))).
  - intros n m. apply enter_tested_NoDup.
  - simpl. apply NoDup_nil_2.
Qed.

(** X4: [useEffect] is recorded once for every call to it: its number of
    occurrences in [usesHooks] is the number of calls whose callee is the
    identifier [useEffect]. *)
Theorem useEffect_recorded_per_call (fs : FileSystem)
    (filePath code : string) (ast : file_ast) (m : file_metadata) :
  readFileSync fs filePath = Some code ->
  parser_parse code = Some ast ->
  parseFile fs filePath = Ok m ->
  occurrences "useEffect" (usesHooks m) = calls_to "useEffect" (visited ast).
Proof.
  intros Hcode Hast ->%(parseFile_classify _ _ _ _ _ Hcode Hast).
  rewrite classify_fold.
  apply (fold_left_prefix (enter fs filePath)
           (fun pre m => occurrences "useEffect" (usesHooks m) =
                         calls_to "useEffect" pre)); [|done].
  intros pre n m IH.
  by rewrite enter_useEffect_occurrences, calls_to_app, IH.
Qed.

(** X5: [useState] is recorded once for every call to it, and at most once
    more; the additional entry only arises in a file with a recognized state
    binding. *)
Theorem useState_recorded_per_call (fs : FileSystem)
    (filePath code : string) (ast : file_ast) (m : file_metadata) :
  readFileSync fs filePath = Some code ->
  parser_parse code = Some ast ->
  parseFile fs filePath = Ok m ->
  occurrences "useState" (usesHooks m) = calls_to "useState" (visited ast) \/
  (occurrences "useState" (usesHooks m) =
     S (calls_to "useState" (visited ast)) /\
   stateVariables m <> []).
Proof.
  intros Hcode Hast ->%(parseFile_classify _ _ _ _ _ Hcode Hast).
  rewrite classify_stateVariables, classify_fold.
  assert (Hinv :
    (fun pre m =>
       occurrences "useState" (usesHooks m) = calls_to "useState" pre \/
       (occurrences "useState" (usesHooks m) = S (calls_to "useState" pre) /\
        omap (state_binding_name 1) pre <> []))
      (visited ast)
      (fold_left (fun m n => enter fs filePath n m) (visited ast)
         (initial_metadata filePath code))); [|done].
  apply (fold_left_prefix (enter fs filePath)); [|by left].
  intros pre n m IH. rewrite calls_to_app, omap_app.
  destruct (enter_useState_occurrences fs filePath n m)
    as [Hadd|(Hzero & Hcall & [v Hv] & Hone)].
  - rewrite Hadd. destruct IH as [IH|[IH Hne]].
    + left. lia.
    + right. split; [lia|]. by destruct (omap _ pre).
  - rewrite Hone, Hcall. destruct IH as [IH|[IH _]]; [|lia].
    right. split; [lia|]. simpl. rewrite Hv. by destruct (omap _ pre).
Qed.

(** X6: no visitor writes [id], [linesOfCode] or [fileType]: in the record
    of a file they are the path relative to the project root, the number
    of pieces the text splits into at newlines (at least 1, also for an empty
    file) and the extension without its dot, whatever the file contains. *)
Theorem record_header (fs : FileSystem) (filePath : string)
    (m : file_metadata) :
  parseFile fs filePath = Ok m ->
  id m = fileId filePath /\
  fileType m = remove_first_dot (path_extname filePath) /\
  (exists code,
     readFileSync fs filePath = Some code /\
     linesOfCode m = split_newline_length code) /\
  1 <= linesOfCode m.
Proof.
  intros (code & ast & Hcode & _ & _ & ->)%parseFile_Ok.
  assert (Hinv : id (classify fs filePath code ast) = fileId filePath /\
                 linesOfCode (classify fs filePath code ast) =
                   split_newline_length code /\
                 fileType (classify fs filePath code ast) =
                   remove_first_dot (path_extname filePath)).
  { rewrite classify_fold.
    apply (fold_left_invariant (enter fs filePath)
             (fun m => id m = fileId filePath /\
                       linesOfCode m = split_newline_length code /\
                       fileType m = remove_first_dot (path_extname filePath)));
      [|done].
    intros n m (Hi & Hl & Ht).
    destruct (enter_header fs filePath n m) as (-> & -> & ->). done. }
  destruct Hinv as (Hi & Hl & Ht). split_and!; [done|done|by exists code|].
  rewrite Hl. apply split_newline_length_pos.
Qed.

(** X9: every recorded component name starts with an uppercase letter
    [A]-[Z]; in particular none is empty. *)
Theorem components_start_uppercase (fs : FileSystem) (filePath : string)
    (m : file_metadata) :
  parseFile fs filePath = Ok m ->
  Forall (fun x => starts_upper x = true /\ x <> "") (components m).
Proof.
  intros (code & ast & _ & _ & _ & ->)%parseFile_Ok.
  apply Forall_forall. intros x.
  rewrite classify_components.
  intros (n & _ & Hn)%list_elem_of_omap.
  assert (Hx : starts_upper x = true).
  { destruct n as [| | | [name|] params body | | | [name| | | | | | | |] [init|]
                   | |]; try done; simpl in Hn.
    - destruct (starts_upper name) eqn:Hup; by simplify_eq.
    - destruct (is_arrow_function init && starts_upper name) eqn:Hup;
        [|done]. apply andb_prop in Hup as [_ Hup]. by simplify_eq. }
  split; [done|]. by intros ->.
Qed.

(** X10: [imports] only ever holds files that exist: each entry is the
    identity of a candidate path of an import declaration of the file that
    [fs.existsSync] accepts; an import that resolves to nothing leaves no
    entry. *)
Theorem imports_exist (fs : FileSystem) (filePath code : string)
    (ast : file_ast) (m : file_metadata) (t : string) :
  readFileSync fs filePath = Some code ->
  parser_parse code = Some ast ->
  parseFile fs filePath = Ok m ->
  t ∈ imports m ->
  exists importPath specifiers p,
    ImportDeclaration importPath specifiers ∈ visited ast /\
    p ∈ possibilities filePath importPath /\
    existsSync fs p = true /\
    t = replace_backslashes (path_relative projectRoot p).
Proof.
  intros Hcode Hast ->%(parseFile_classify _ _ _ _ _ Hcode Hast).
  rewrite classify_imports.
  intros (n & Hn & Ht)%list_elem_of_omap.
  destruct n as [| | importPath specifiers | | | | | |]; try done.
  simpl in Ht.
  destruct (resolveImportPath fs filePath importPath) as [p|] eqn:Hp;
    [|done].
  destruct (truthy p); [|done]. injection Ht as <-.
  apply first_existing_Some in Hp as (i & Hi & Hex & _).
  exists importPath, specifiers, p. split_and!; [done| |done|done].
  apply list_elem_of_lookup. eauto.
Qed.

End MoreProperties.

Section MoreGraph.

Context `{Platform}.

Lemma omap_state_targets (records : list file_metadata) :
  omap (fun e => match type e with
                 | state_edge => Some (target e)
                 | imports_edge => None
                 end)
    (flat_map record_state_edges records) =
  omap (fun n => match n with
                 | StateNode i _ _ => Some i
                 | FileNode _ => None
                 end)
    (flat_map record_nodes records).
Proof.
  induction records as [|m records IH]; [done|].
  cbn [flat_map]. rewrite !omap_app, IH. f_equal.
  unfold record_state_edges, record_nodes. cbn [omap list_omap].
  induction (stateVariables m) as [|v vars IHv]; [done|].
  rewrite !fmap_cons. cbn [omap list_omap]. simpl. by f_equal.
Qed.

Lemma omap_imports_targets (known : string -> bool)
    (records : list file_metadata) :
  omap (fun e => match type e with
                 | state_edge => Some (target e)
                 | imports_edge => None
                 end)
    (flat_map (record_imports_edges known) records) = [].
Proof.
  induction records as [|m records IH]; [done|].
  cbn [flat_map]. rewrite omap_app, IH, app_nil_r.
  unfold record_imports_edges.
  induction (List.filter known (imports m)) as [|t ts IHt]; [done|].
  rewrite fmap_cons. cbn [omap list_omap]. simpl. apply IHt.
Qed.

(** X7: the graph [main] returns lists, for each file in the order of
    [files], the file's record followed by one state node per entry of its
    [stateVariables]; its edges are all state edges, file by file, followed
    by all [imports] edges, file by file, one for each import target that is
    the identity of some file of the run (wherever that file stands in
    [files]). *)
Theorem graph_layout (fs : FileSystem) (files : list string) (g : graph) :
  main fs files = Ok g ->
  exists records,
    Forall2 (fun F m => parseFile fs F = Ok m) files records /\
    nodes g =
      flat_map
        (fun m =>
           FileNode m ::
           ((fun v => StateNode (id m +:+ "::state::" +:+ v) v (id m))
              <$> stateVariables m))
        records /\
    edges g =
      flat_map
        (fun m =>
           (fun v => Edge (id m) (id m +:+ "::state::" +:+ v) state_edge)
             <$> stateVariables m)
        records
      ++ flat_map
           (fun m =>
              (fun t => Edge (id m) t imports_edge)
                <$> List.filter (fun t => bool_decide (t ∈ id <$> records))
                      (imports m))
           records.
Proof.
  intros (records & Hall & ->)%main_Ok. exists records.
  split_and!; [done|apply assemble_nodes|apply assemble_edges].
Qed.

(** X8: in the graph [main] returns, every state node belongs to a file
    node of the graph: its parent is the identity of that file, its label
    one of the file's state variables and its identity
    [parent::state::label]; the source of every edge is a file node, and
    every state edge leads from a file to a state node that file owns. *)
Theorem state_nodes_owned (fs : FileSystem) (files : list string)
    (g : graph) :
  main fs files = Ok g ->
  (forall i label parent,
     StateNode i label parent ∈ nodes g ->
     exists m,
       FileNode m ∈ nodes g /\ parent = id m /\
       label ∈ stateVariables m /\
       i = parent +:+ "::state::" +:+ label) /\
  (forall e, e ∈ edges g -> source e ∈ file_node_ids g) /\
  (forall e, e ∈ edges g -> type e = state_edge ->
     exists label, StateNode (target e) label (source e) ∈ nodes g).
Proof.
  intros (records & Hall & ->)%main_Ok.
  assert (Hfile : forall m, m ∈ records ->
                            FileNode m ∈ nodes (assemble records)).
  { intros m Hm. apply assemble_node_cases. exists m. auto. }
  split_and!.
  - intros i label parent
      (m & Hm & [[=]|(v & Hv & [= -> -> ->])])%assemble_node_cases.
    exists m. split_and!; auto.
  - intros e He. rewrite file_node_ids_assemble.
    apply assemble_edge_cases in He
      as [(m & v & Hm & _ & ->)|(m & t & Hm & _ & _ & ->)];
      simpl; by apply list_elem_of_fmap_2.
  - intros e He Htype.
    apply assemble_edge_cases in He
      as [(m & v & Hm & Hv & ->)|(m & t & _ & _ & _ & ->)]; [|done].
    exists v. apply assemble_node_cases. exists m. split; [done|].
    right. by exists v.
Qed.

(** X11: state edges and state nodes correspond one to one and in order:
    the targets of the state edges of the graph, read in order, are the
    identities of its state nodes, read in order (so there are as many of
    the one as of the other, repetitions included). *)
Theorem state_edges_match_state_nodes (fs : FileSystem) (files : list string)
    (g : graph) :
  main fs files = Ok g ->
  omap (fun e => match type e with
                 | state_edge => Some (target e)
                 | imports_edge => None
                 end) (edges g) =
  omap (fun n => match n with
                 | StateNode i _ _ => Some i
                 | FileNode _ => None
                 end) (nodes g).
Proof.
  intros (records & Hall & ->)%main_Ok.
  rewrite assemble_edges, assemble_nodes, omap_app.
  by rewrite omap_imports_targets, app_nil_r, omap_state_targets.
Qed.

End MoreGraph.

(** * Further properties on the scenarios *)

Section MoreScenarios.

Import ScenarioHooks.

#[local] Existing Instance ScenarioHooks.platform.

(** Scenario E: [import { Route } from 'react-router-dom']. *)
Lemma routes_declared_app :
  declaresRoutes app_record = true <->
  exists specifiers imported local,
    ImportDeclaration "react-router-dom" specifiers ∈ visited routes_ast /\
    ImportSpecifier (Some imported) local ∈ specifiers /\
    (imported = "Route" \/ imported = "Routes").
Proof.
  apply (routes_declared (Scenario.filesystem project_routes)
           (Scenario.src "App.jsx")
           "import { Route } from 'react-router-dom'; import Menu from './Menu';"
           routes_ast app_record); reflexivity.
Defined.

(** Two effects, a custom hook called twice and a call through [React.]. *)
Lemma hook_names_are_hook_calls_effects :
  "useTheme" ∈ usesHooks effects_record <->
  exists n, n ∈ visited effects_ast /\ hook_call_name n = Some "useTheme".
Proof.
  apply (hook_names_are_hook_calls (Scenario.filesystem project_effects)
           (Scenario.src "Effects.jsx")
           "useEffect(load); useEffect(save); useTheme(); useTheme(); React.useMemo(f);"
           effects_ast effects_record "useTheme"); reflexivity.
Defined.

(** [useEffect] is called, [useState] and [useContext] are not. *)
Lemma flags_tell_calls_effects :
  (usesState effects_record = true <->
   exists n, n ∈ visited effects_ast /\ is_call_to "useState" n = true) /\
  (usesEffect effects_record = true <->
   exists n, n ∈ visited effects_ast /\ is_call_to "useEffect" n = true) /\
  (usesContext effects_record = true <->
   exists n, n ∈ visited effects_ast /\ is_call_to "useContext" n = true).
Proof.
  apply (flags_tell_calls (Scenario.filesystem project_effects)
           (Scenario.src "Effects.jsx")
           "useEffect(load); useEffect(save); useTheme(); useTheme(); React.useMemo(f);"
           effects_ast effects_record); reflexivity.
Defined.

(** [useTheme] is called twice and recorded once. *)
Lemma tested_hook_names_once_effects :
  occurrences "useTheme" (usesHooks effects_record) <= 1.
Proof.
  apply (tested_hook_names_once (Scenario.filesystem project_effects)
           (Scenario.src "Effects.jsx")
           "useEffect(load); useEffect(save); useTheme(); useTheme(); React.useMemo(f);"
           effects_ast effects_record "useTheme");
    [reflexivity | reflexivity | reflexivity | discriminate | discriminate].
Defined.

(** [useEffect] is called twice and recorded twice. *)
Lemma useEffect_recorded_per_call_effects :
  occurrences "useEffect" (usesHooks effects_record) =
  calls_to "useEffect" (visited effects_ast).
Proof.
  apply (useEffect_recorded_per_call (Scenario.filesystem project_effects)
           (Scenario.src "Effects.jsx")
           "useEffect(load); useEffect(save); useTheme(); useTheme(); React.useMemo(f);"
           effects_ast effects_record); reflexivity.
Defined.

(** Scenario D: one call to [useState], recorded twice. *)
Lemma useState_recorded_per_call_counter :
  occurrences "useState" (usesHooks Scenario.counter_record) =
    calls_to "useState" (visited Scenario.counter_ast) \/
  (occurrences "useState" (usesHooks Scenario.counter_record) =
     S (calls_to "useState" (visited Scenario.counter_ast)) /\
   stateVariables Scenario.counter_record <> []).
Proof.
  apply (useState_recorded_per_call
           (Scenario.filesystem Scenario.project_counter)
           (Scenario.src "Counter.jsx")
           "const [count, setCount] = useState(0);" Scenario.counter_ast
           Scenario.counter_record);
    reflexivity.
Defined.

(** The record of [App.jsx]. *)
Lemma record_header_app :
  id app_record = fileId (Scenario.src "App.jsx") /\
  fileType app_record =
    remove_first_dot (path_extname (Scenario.src "App.jsx")) /\
  (exists code,
     readFileSync (Scenario.filesystem project_routes)
       (Scenario.src "App.jsx") = Some code /\
     linesOfCode app_record = split_newline_length code) /\
  1 <= linesOfCode app_record.
Proof.
  apply (record_header (Scenario.filesystem project_routes)
           (Scenario.src "App.jsx")).
  vm_compute. reflexivity.
Defined.

(** The components [Menu] and [Dialog]. *)
Lemma components_start_uppercase_menu :
  Forall (fun x => starts_upper x = true /\ x <> "")
    (components Scenario.menu_record).
Proof.
  apply (components_start_uppercase (Scenario.filesystem project_routes)
           (Scenario.src "Menu.jsx")).
  vm_compute. reflexivity.
Defined.

(** [./Menu] resolves to [Menu.jsx]; [react-router-dom] to nothing. *)
Lemma imports_exist_app :
  exists importPath specifiers p,
    ImportDeclaration importPath specifiers ∈ visited routes_ast /\
    p ∈ possibilities (Scenario.src "App.jsx") importPath /\
    existsSync (Scenario.filesystem project_routes) p = true /\
    "Menu.jsx" = replace_backslashes (path_relative projectRoot p).
Proof.
  apply (imports_exist (Scenario.filesystem project_routes)
           (Scenario.src "App.jsx")
           "import { Route } from 'react-router-dom'; import Menu from './Menu';"
           routes_ast app_record "Menu.jsx");
    [reflexivity | reflexivity | reflexivity |].
  apply elem_of_cons. by left.
Defined.

(** [App.jsx] imports [Menu.jsx], which comes after it in [files]. *)
Lemma graph_layout_routes :
  exists records,
    Forall2
      (fun F m => parseFile (Scenario.filesystem project_routes) F = Ok m)
      [Scenario.src "App.jsx"; Scenario.src "Menu.jsx"] records /\
    nodes graph_routes =
      flat_map
        (fun m =>
           FileNode m ::
           ((fun v => StateNode (id m +:+ "::state::" +:+ v) v (id m))
              <$> stateVariables m))
        records /\
    edges graph_routes =
      flat_map
        (fun m =>
           (fun v => Edge (id m) (id m +:+ "::state::" +:+ v) state_edge)
             <$> stateVariables m)
        records
      ++ flat_map
           (fun m =>
              (fun t => Edge (id m) t imports_edge)
                <$> List.filter (fun t => bool_decide (t ∈ id <$> records))
                      (imports m))
           records.
Proof.
  apply (graph_layout (Scenario.filesystem project_routes)
           [Scenario.src "App.jsx"; Scenario.src "Menu.jsx"] graph_routes).
  vm_compute. reflexivity.
Defined.

Lemma state_nodes_owned_routes :
  (forall i label parent,
     StateNode i label parent ∈ nodes graph_routes ->
     exists m,
       FileNode m ∈ nodes graph_routes /\ parent = id m /\
       label ∈ stateVariables m /\
       i = parent +:+ "::state::" +:+ label) /\
  (forall e, e ∈ edges graph_routes -> source e ∈ file_node_ids graph_routes) /\
  (forall e, e ∈ edges graph_routes -> type e = state_edge ->
     exists label, StateNode (target e) label (source e) ∈ nodes graph_routes).
Proof.
  apply (state_nodes_owned (Scenario.filesystem project_routes)
           [Scenario.src "App.jsx"; Scenario.src "Menu.jsx"] graph_routes).
  vm_compute. reflexivity.
Defined.

Lemma state_edges_match_state_nodes_routes :
  omap (fun e => match type e with
                 | state_edge => Some (target e)
                 | imports_edge => None
                 end) (edges graph_routes) =
  omap (fun n => match n with
                 | StateNode i _ _ => Some i
                 | FileNode _ => None
                 end) (nodes graph_routes).
Proof.
  apply (state_edges_match_state_nodes (Scenario.filesystem project_routes)
           [Scenario.src "App.jsx"; Scenario.src "Menu.jsx"] graph_routes).
  vm_compute. reflexivity.
Defined.

End MoreScenarios.
